(** * String Analysis API: a shallow embedding of [server.js]

    The service keeps an in-memory collection [stringsBank] of analysed
    strings, mirrors it to [strings.json] after every mutation, and answers
    five routes.  This development embeds the analyser, the five handlers,
    the middleware chain and the router as executable Rocq definitions and
    proves properties about them.

    Conventions.
    - A JavaScript string is its sequence of UTF-16 code units
      ([jsstring = list N]); iteration ([for ... of], [new Set(str)]) groups
      surrogate pairs, whereas [length], [split("")] and [includes] work on
      code units, as in the language.
    - The JavaScript numbers that the handlers compute with are doubles with
      integer values.  A finite one is modelled by its value in [Z],
      [Infinity] and [-Infinity] by [2^1024] and [-2^1024] (which no finite
      double equals), [NaN] by [None]; [parseInt] and the addition round to
      the nearest double.  Negative zero is not told apart from zero: the
      comparisons and the serialisation of the handlers treat them alike.
    - A handler is modelled as it runs when no other request is handled
      between its [await]s, over a collection which is a list of records.
    - A handler is a computation in a state-and-exception monad whose state
      holds the collection, the storage file and the response written so
      far; an exception which is not caught leaves the handler without a
      response having been written. *)

From Stdlib Require Import List NArith ZArith Bool Ascii String Lia Permutation.
Import ListNotations.

(** ** JavaScript strings *)

Definition jsstring := list N.

(** Code units of an ASCII literal. *)
Definition js (s : string) : jsstring :=
  map N_of_ascii (list_ascii_of_string s).

(** [a === b] on strings. *)
Fixpoint str_eqb (a b : jsstring) : bool :=
  match a, b with
  | [], [] => true
  | x :: a', y :: b' => N.eqb x y && str_eqb a' b'
  | _, _ => false
  end.

(** [s.startsWith(p)], returning what follows the prefix. *)
Fixpoint strip_prefix (p s : jsstring) : option jsstring :=
  match p, s with
  | [], _ => Some s
  | x :: p', y :: s' => if N.eqb x y then strip_prefix p' s' else None
  | _ :: _, [] => None
  end.

Definition startsWith (s p : jsstring) : bool :=
  match strip_prefix p s with Some _ => true | None => false end.

(** [s.includes(sub)]: [sub] occurs at some position of [s]. *)
Fixpoint includes (s sub : jsstring) : bool :=
  startsWith s sub ||
  match s with
  | [] => false
  | _ :: t => includes t sub
  end.

(** [s.replaceAll(" ", "")]. *)
Definition SPACE : N := 32.

Definition replaceAll_space (s : jsstring) : jsstring :=
  filter (fun c => negb (N.eqb c SPACE)) s.

(** White space and line terminators: the set used by [trim] and by the
    regular-expression class [\s]. *)
Definition isWhiteSpace (c : N) : bool :=
  ((9 <=? c) && (c <=? 13) || (c =? 32) || (c =? 160) || (c =? 5760)
   || (8192 <=? c) && (c <=? 8202) || (c =? 8232) || (c =? 8233)
   || (c =? 8239) || (c =? 8287) || (c =? 12288) || (c =? 65279))%N.

Fixpoint trimStart (s : jsstring) : jsstring :=
  match s with
  | [] => []
  | c :: t => if isWhiteSpace c then trimStart t else s
  end.

Definition trimEnd (s : jsstring) : jsstring :=
  rev (trimStart (rev s)).

Definition trim (s : jsstring) : jsstring := trimEnd (trimStart s).

(** [s.split(/\s+/)]: the pieces between maximal runs of white space.
    [inrun] tells that the previous code unit was white space; [cur] is the
    piece being read. *)
Fixpoint split_ws_from (inrun : bool) (cur : jsstring) (s : jsstring)
  : list jsstring :=
  match s with
  | [] => [cur]
  | c :: t =>
      if isWhiteSpace c then
        if inrun then split_ws_from true cur t
        else cur :: split_ws_from true [] t
      else split_ws_from false (cur ++ [c]) t
  end.

Definition split_ws (s : jsstring) : list jsstring :=
  split_ws_from false [] s.

(** [s.split(sep)] for a separator of one code unit. *)
Fixpoint split_on_from (sep : N) (cur : jsstring) (s : jsstring)
  : list jsstring :=
  match s with
  | [] => [cur]
  | c :: t =>
      if N.eqb c sep then cur :: split_on_from sep [] t
      else split_on_from sep (cur ++ [c]) t
  end.

Definition split_on (sep : N) (s : jsstring) : list jsstring :=
  split_on_from sep [] s.

(** [s.split("")]: one string per code unit; [parts.join("")]. *)
Definition split_empty (s : jsstring) : list jsstring :=
  map (fun c => [c]) s.

Definition join_empty (parts : list jsstring) : jsstring :=
  List.concat parts.

(** [parts.join(",")], which is also [String(parts)] for an array. *)
Fixpoint join_comma (parts : list jsstring) : jsstring :=
  match parts with
  | [] => []
  | [p] => p
  | p :: rest => p ++ 44%N :: join_comma rest
  end.

(** String iteration ([for (const ch of s)], [new Set(s)]): by code point.
    A high surrogate followed by a low surrogate is one character of two
    code units; every other code unit is a character of its own. *)
Definition isHighSurrogate (c : N) : bool := ((55296 <=? c) && (c <=? 56319))%N.
Definition isLowSurrogate (c : N) : bool := ((56320 <=? c) && (c <=? 57343))%N.

Fixpoint chars (s : jsstring) : list jsstring :=
  match s with
  | [] => []
  | c :: t =>
      match t with
      | d :: t' =>
          if isHighSurrogate c && isLowSurrogate d
          then [c; d] :: chars t'
          else [c] :: chars t
      | [] => [[c]]
      end
  end.

(** *** Numbers out of strings: [parseInt] *)

Definition isDigit (c : N) : bool := ((48 <=? c) && (c <=? 57))%N.

Definition digitValue (c : N) : option Z :=
  if isDigit c then Some (Z.of_N c - 48)%Z
  else if ((97 <=? c) && (c <=? 122))%N then Some (Z.of_N c - 87)%Z
  else if ((65 <=? c) && (c <=? 90))%N then Some (Z.of_N c - 55)%Z
  else None.

Definition radixDigit (R : Z) (c : N) : option Z :=
  match digitValue c with
  | Some d => if (d <? R)%Z then Some d else None
  | None => None
  end.

(** The value of the longest prefix of radix-[R] digits; [None] when that
    prefix is empty. *)
Fixpoint parseDigits (R : Z) (acc : option Z) (s : jsstring) : option Z :=
  match s with
  | [] => acc
  | c :: t =>
      match radixDigit R c with
      | Some d =>
          parseDigits R
            (Some (R * match acc with Some a => a | None => 0 end + d)%Z) t
      | None => acc
      end
  end.

(** The sign read by [parseInt], and what follows it. *)
Definition parseSign (s : jsstring) : Z * jsstring :=
  match s with
  | c :: t =>
      if (c =? 45)%N then ((-1)%Z, t)
      else if (c =? 43)%N then (1%Z, t)
      else (1%Z, s)
  | [] => (1%Z, s)
  end.

(** The radix chosen by [parseInt] when none is given: 16 after a [0x] or
    [0X] prefix, which is removed, and 10 otherwise. *)
Definition parseRadix (s : jsstring) : Z * jsstring :=
  match s with
  | z :: x :: t =>
      if ((z =? 48) && ((x =? 120) || (x =? 88)))%N then (16%Z, t)
      else (10%Z, s)
  | _ => (10%Z, s)
  end.

(** [Infinity], as the model writes it: the first power of two which is
    not a finite double. *)
Definition Infinity : Z := (2 ^ 1024)%Z.

(** The double nearest to a non-negative integer: the integer itself up to
    53 significant bits, else its 53 leading bits rounded to nearest, ties
    to the even significand; [Infinity] from [2^1024 - 2^970] on. *)
Definition roundPositive (z : Z) : Z :=
  let bits := Z.log2 z in
  if (bits <=? 52)%Z then z
  else
    let shift := (bits - 52)%Z in
    let q := Z.shiftr z shift in
    let r := (z mod 2 ^ shift)%Z in
    let half := (2 ^ (shift - 1))%Z in
    let q' :=
      if (half <? r)%Z || ((r =? half)%Z && Z.odd q) then (q + 1)%Z else q in
    Z.min (Z.shiftl q' shift) Infinity.

(** The Number value of a mathematical integer. *)
Definition toDouble (z : Z) : Z :=
  if (z <? 0)%Z then (- roundPositive (- z))%Z else roundPositive z.

(** [a + b] on Numbers with integer values. *)
Definition number_add (a b : Z) : Z := toDouble (a + b).

(** [parseInt(s)] without a radix: leading white space is skipped, a sign
    is read, the radix is chosen, the digits that follow are read up to the
    first code unit that is not a digit, and the signed integer read is
    rounded to a double (the language lets an implementation approximate
    a decimal integer after its 20th digit; Node rounds the exact value,
    which is what is modelled).  [None] is [NaN]. *)
Definition parseInt (input : jsstring) : option Z :=
  let signed := parseSign (trimStart input) in
  let digits := parseRadix (snd signed) in
  option_map (fun mathInt => toDouble (fst signed * mathInt))
             (parseDigits (fst digits) None (snd digits)).

(** *** The three regular expressions of the natural-language handler *)

(** Case folding of a pattern without the [u] flag: on ASCII patterns only
    the ASCII letters have a second form. *)
Definition toUpperAscii (c : N) : N :=
  if ((97 <=? c) && (c <=? 122))%N then (c - 32)%N else c.

Fixpoint strip_prefix_ci (p s : jsstring) : option jsstring :=
  match p, s with
  | [], _ => Some s
  | x :: p', y :: s' =>
      if N.eqb (toUpperAscii x) (toUpperAscii y)
      then strip_prefix_ci p' s' else None
  | _ :: _, [] => None
  end.

(** The class [\w]. *)
Definition isWordChar (c : N) : bool :=
  isDigit c || ((65 <=? c) && (c <=? 90))%N
  || ((97 <=? c) && (c <=? 122))%N || (c =? 95)%N.

Fixpoint takeWhile (f : N -> bool) (s : jsstring) : jsstring :=
  match s with
  | [] => []
  | c :: t => if f c then c :: takeWhile f t else []
  end.

(** [s.match(/longer than (\d+)/)]: the first group of the leftmost match,
    [None] when there is no match. *)
Fixpoint match_longer_than (s : jsstring) : option jsstring :=
  let here :=
    match strip_prefix (js "longer than ") s with
    | Some rest =>
        match takeWhile isDigit rest with
        | [] => None
        | ds => Some ds
        end
    | None => None
    end in
  match here with
  | Some ds => Some ds
  | None =>
      match s with
      | [] => None
      | _ :: t => match_longer_than t
      end
  end.

(** [s.match(/containing the letter (\w)/i)]: the first group of the
    leftmost match. *)
Fixpoint match_containing_the_letter (s : jsstring) : option jsstring :=
  let here :=
    match strip_prefix_ci (js "containing the letter ") s with
    | Some (c :: _) => if isWordChar c then Some [c] else None
    | _ => None
    end in
  match here with
  | Some x => Some x
  | None =>
      match s with
      | [] => None
      | _ :: t => match_containing_the_letter t
      end
  end.

(** [s.match(/first vowel/i)] is not [null]. *)
Fixpoint match_first_vowel (s : jsstring) : bool :=
  match strip_prefix_ci (js "first vowel") s with
  | Some _ => true
  | None =>
      match s with
      | [] => false
      | _ :: t => match_first_vowel t
      end
  end.

(** *** [decodeURIComponent] *)

Definition hexValue (c : N) : option N :=
  if isDigit c then Some (c - 48)%N
  else if ((97 <=? c) && (c <=? 102))%N then Some (c - 87)%N
  else if ((65 <=? c) && (c <=? 70))%N then Some (c - 55)%N
  else None.

Definition parseHexOctet (h1 h2 : N) : option N :=
  match hexValue h1, hexValue h2 with
  | Some a, Some b => Some (16 * a + b)%N
  | _, _ => None
  end.

Definition PERCENT : N := 37.

(** Reads one escape [%XX] at the head of [s] and hands the octet and the
    rest to [k]; anything else is a [URIError]. *)
Definition readEscape {A} (s : jsstring) (k : N -> jsstring -> option A)
  : option A :=
  match s with
  | p :: h1 :: h2 :: rest =>
      if N.eqb p PERCENT then
        match parseHexOctet h1 h2 with
        | Some b => k b rest
        | None => None
        end
      else None
  | _ => None
  end.

Definition isContinuation (b : N) : bool := ((128 <=? b) && (b <=? 191))%N.

(** Code points of well-formed UTF-8 sequences of two, three and four
    octets: shortest form, no surrogate, at most U+10FFFF. *)
Definition utf8_2 (b0 b1 : N) : option N :=
  let V := (N.land b0 31 * 64 + N.land b1 63)%N in
  if isContinuation b1 && (128 <=? V)%N then Some V else None.

Definition utf8_3 (b0 b1 b2 : N) : option N :=
  let V := (N.land b0 15 * 4096 + N.land b1 63 * 64 + N.land b2 63)%N in
  if isContinuation b1 && isContinuation b2 && (2048 <=? V)%N
     && negb ((55296 <=? V) && (V <=? 57343))%N
  then Some V else None.

Definition utf8_4 (b0 b1 b2 b3 : N) : option N :=
  let V := (N.land b0 7 * 262144 + N.land b1 63 * 4096
            + N.land b2 63 * 64 + N.land b3 63)%N in
  if isContinuation b1 && isContinuation b2 && isContinuation b3
     && (65536 <=? V)%N && (V <=? 1114111)%N
  then Some V else None.

Definition UTF16EncodeCodePoint (V : N) : jsstring :=
  if (V <? 65536)%N then [V]
  else [(55296 + (V - 65536) / 1024)%N; (56320 + (V - 65536) mod 1024)%N].

(** [decodeURIComponent(s)]; [None] is a thrown [URIError]. *)
Fixpoint decodeURIComponent (s : jsstring) : option jsstring :=
  match s with
  | [] => Some []
  | c :: t =>
      if N.eqb c PERCENT then
        match t with
        | h1 :: h2 :: t1 =>
            match parseHexOctet h1 h2 with
            | None => None
            | Some B =>
                if (B <? 128)%N then
                  option_map (cons B) (decodeURIComponent t1)
                else if (B <? 192)%N then None
                else if (B <? 224)%N then
                  readEscape t1 (fun b1 r1 =>
                    match utf8_2 B b1 with
                    | Some V =>
                        option_map (app (UTF16EncodeCodePoint V))
                                   (decodeURIComponent r1)
                    | None => None
                    end)
                else if (B <? 240)%N then
                  readEscape t1 (fun b1 r1 =>
                  readEscape r1 (fun b2 r2 =>
                    match utf8_3 B b1 b2 with
                    | Some V =>
                        option_map (app (UTF16EncodeCodePoint V))
                                   (decodeURIComponent r2)
                    | None => None
                    end))
                else if (B <? 248)%N then
                  readEscape t1 (fun b1 r1 =>
                  readEscape r1 (fun b2 r2 =>
                  readEscape r2 (fun b3 r3 =>
                    match utf8_4 B b1 b2 b3 with
                    | Some V =>
                        option_map (app (UTF16EncodeCodePoint V))
                                   (decodeURIComponent r3)
                    | None => None
                    end)))
                else None
            end
        | _ => None
        end
      else option_map (cons c) (decodeURIComponent t)
  end.

(** ** JavaScript containers *)

(** A [Map] keeps its entries in insertion order; setting a key which is
    present replaces the value where it stands. *)
Fixpoint Map_get {V} (m : list (jsstring * V)) (k : jsstring) : option V :=
  match m with
  | [] => None
  | (k', v) :: rest => if str_eqb k' k then Some v else Map_get rest k
  end.

Fixpoint Map_set {V} (m : list (jsstring * V)) (k : jsstring) (v : V)
  : list (jsstring * V) :=
  match m with
  | [] => [(k, v)]
  | (k', v') :: rest =>
      if str_eqb k' k then (k', v) :: rest else (k', v') :: Map_set rest k v
  end.

(** A [Set] of strings, in insertion order. *)
Definition Set_add (s : list jsstring) (x : jsstring) : list jsstring :=
  if existsb (str_eqb x) s then s else s ++ [x].

(** An ordinary object lists its own properties with the array indices
    first, in ascending order, and the other keys after them in the order
    of their creation. *)
Definition JSObject (V : Type) := list (jsstring * V).

Definition decimalValue (k : jsstring) : N :=
  fold_left (fun acc c => (10 * acc + (c - 48))%N) k 0%N.

Definition arrayIndex (k : jsstring) : option N :=
  match k with
  | [] => None
  | c :: t =>
      if forallb isDigit k
         && (negb (N.eqb c 48) || match t with [] => true | _ => false end)
         && (decimalValue k <? 4294967295)%N
      then Some (decimalValue k) else None
  end.

Fixpoint insert_index {V} (i : N) (k : jsstring) (v : V) (o : JSObject V)
  : JSObject V :=
  match o with
  | [] => [(k, v)]
  | (k', v') :: rest =>
      match arrayIndex k' with
      | Some j =>
          if (j <? i)%N then (k', v') :: insert_index i k v rest
          else (k, v) :: o
      | None => (k, v) :: o
      end
  end.

(** [o[k] = v]. *)
Definition obj_set {V} (k : jsstring) (v : V) (o : JSObject V) : JSObject V :=
  match Map_get o k with
  | Some _ => Map_set o k v
  | None =>
      match arrayIndex k with
      | Some i => insert_index i k v o
      | None => o ++ [(k, v)]
      end
  end.

Definition Object_fromEntries {V} (entries : list (jsstring * V)) : JSObject V :=
  fold_left (fun o kv => obj_set (fst kv) (snd kv) o) entries [].

(** What [JSON.parse] returns.  A number is carried by its text: no handler
    looks at the numeric value of a parsed number.  The fields of an object
    are its own properties, each key once. *)
#[warnings="-register-all"]
Inductive JSValue : Type :=
| JNull
| JBool (b : bool)
| JNum (text : jsstring)
| JStr (s : jsstring)
| JArr (items : list JSValue)
| JObj (fields : list (jsstring * JSValue)).

(** ** Data model *)

Record Properties := {
  length_ : Z;
  is_palindrome : bool;
  unique_characters : Z;
  word_count : Z;
  sha256_hash : jsstring;
  character_frequency_map : JSObject Z
}.

Record StringRecord := {
  id : jsstring;
  value : jsstring;
  properties : Properties;
  created_at : jsstring
}.

(** ** Analyzer: the property computations of [finalHandler] *)

(** One turn of the counting loop:
    [charCounts.set(char, (charCounts.get(char) || 0) + 1)]. *)
Definition count_step (charCounts : list (jsstring * Z)) (char : jsstring)
  : list (jsstring * Z) :=
  let count :=
    match Map_get charCounts char with Some n => n | None => 0%Z end in
  Map_set charCounts char (count + 1)%Z.

(** [charCounts]: the loop over [value.replaceAll(" ", "")]. *)
Definition charCounts (value : jsstring) : list (jsstring * Z) :=
  fold_left count_step (chars (replaceAll_space value)) [].

Definition characterMap (value : jsstring) : JSObject Z :=
  Object_fromEntries (charCounts value).

(** [value.length > 0 && value.split("").reverse().join("") === value]. *)
Definition palindrome_test (value : jsstring) : bool :=
  (0 <? List.length value)%nat
  && str_eqb (join_empty (rev (split_empty value))) value.

(** [new Set(value)] and its [size]. *)
Definition Set_of_string (value : jsstring) : list jsstring :=
  fold_left Set_add (chars value) [].

Definition uniqueCharactersCount (value : jsstring) : Z :=
  Z.of_nat (List.length (Set_of_string value)).

(** [value.trim() === "" ? 0 : value.trim().split(/\s+/).length]. *)
Definition wordCount (value : jsstring) : Z :=
  if str_eqb (trim value) [] then 0%Z
  else Z.of_nat (List.length (split_ws (trim value))).

Definition responseObject (hashedString : jsstring) (value : jsstring)
  (now : jsstring) : StringRecord :=
  {| id := hashedString;
     value := value;
     properties :=
       {| length_ := Z.of_nat (List.length value);
          is_palindrome := palindrome_test value;
          unique_characters := uniqueCharactersCount value;
          word_count := wordCount value;
          sha256_hash := hashedString;
          character_frequency_map := characterMap value |};
     created_at := now |}.

(** ** Requests and responses *)

(** A value of the parsed query string: a key given once is a string, a
    key given several times is the array of its values. *)
Inductive QueryValue :=
| QStr (s : jsstring)
| QArr (items : list jsstring).

Definition Query := list (jsstring * QueryValue).

(** [String(v)]. *)
Definition QueryValue_toString (v : QueryValue) : jsstring :=
  match v with
  | QStr s => s
  | QArr items => join_comma items
  end.

(** Values recorded in [filters_applied] and [parsed_filters]; a number is
    [None] when it is [NaN]. *)
Inductive FilterValue :=
| FBool (b : bool)
| FNum (n : option Z)
| FQuery (v : QueryValue).

(** The object handed to [JSON.stringify] for the response body. *)
Inductive Body :=
| BodyError (message : jsstring)
| BodySuccess (data : StringRecord)
| BodyList (data : list StringRecord) (count : Z)
           (filters_applied : JSObject FilterValue)
| BodyNatural (data : list StringRecord) (count : Z) (original : jsstring)
              (parsed_filters : JSObject FilterValue)
| BodyEmpty.

(** Every response is written with the header
    [content-type: application/json]. *)
Record Response := {
  statusCode : Z;
  body : Body
}.

Record Request := {
  method : jsstring;
  pathname : jsstring;
  query : Query;
  content_type : option jsstring;
  payload : jsstring;
  req_body : JSValue
}.

(** ** State, exceptions and the handler monad *)

(** [stringsBank] is the collection, a list of records as the create
    handler builds them (start-up does not check that the file holds such a
    list, see [loadStringsBank]; the handlers are modelled from a
    collection which is one).  [stringsFile] is the collection which
    [strings.json] holds, [None] while the file does not exist or does not
    hold a complete serialisation; [res] is the response written to the
    client, [None] while nothing has been written. *)
Record State := {
  stringsBank : list StringRecord;
  stringsFile : option (list StringRecord);
  res : option Response
}.

Inductive Exn :=
| TypeError
| URIError
| SyntaxError
| IOError
| HeadersSent
| Error (message : jsstring).

(** What the outside world decides during one request: the clock, whether
    [fs.writeFile] succeeds, and what a failed write leaves of the file
    ([fs.writeFile] opens the file for writing, which empties it, before it
    writes). *)
Inductive FailedWrite :=
| LeavesOldFile       (* the failure came before the file was opened *)
| LeavesDamagedFile   (* the file was truncated, or written in part *)
| LeavesNewFile.      (* the data were written before the failure *)

Record Env := {
  now : jsstring;
  writeFile_ok : bool;
  writeFile_failure : FailedWrite
}.

(** The file after a write of [data] which failed. *)
Definition after_failed_write (env : Env)
  (old : option (list StringRecord)) (data : list StringRecord)
  : option (list StringRecord) :=
  match writeFile_failure env with
  | LeavesOldFile => old
  | LeavesDamagedFile => None
  | LeavesNewFile => Some data
  end.

Definition M (A : Type) : Type := State -> (Exn + A) * State.

Definition ret {A} (a : A) : M A := fun st => (inr a, st).

Definition bind {A B} (m : M A) (k : A -> M B) : M B :=
  fun st =>
    match m st with
    | (inr a, st') => k a st'
    | (inl e, st') => (inl e, st')
    end.

Definition throw {A} (e : Exn) : M A := fun st => (inl e, st).

(** [try { m } catch (error) { h error }]: what [m] did to the state before
    it threw stays done. *)
Definition try_catch {A} (m : M A) (h : Exn -> M A) : M A :=
  fun st =>
    match m st with
    | (inl e, st') => h e st'
    | r => r
    end.

Definition gets {A} (f : State -> A) : M A := fun st => (inr (f st), st).

Definition modify (f : State -> State) : M unit := fun st => (inr tt, f st).

Declare Scope monad_scope.
Delimit Scope monad_scope with monad.
Notation "x <- c ;; k" := (bind c (fun x => k))
  (at level 61, c at next level, right associativity) : monad_scope.
Notation "c ;; k" := (bind c (fun _ => k))
  (at level 61, right associativity) : monad_scope.
Local Open Scope monad_scope.

(** [res.writeHead(code, ...); res.end(JSON.stringify(b))]. *)
Definition send (code : Z) (b : Body) : M unit :=
  fun st =>
    match res st with
    | Some _ => (inl HeadersSent, st)
    | None =>
        (inr tt,
         {| stringsBank := stringsBank st;
            stringsFile := stringsFile st;
            res := Some {| statusCode := code; body := b |} |})
    end.

(** [stringsBank.push(r)]. *)
Definition push (r : StringRecord) : M unit :=
  modify (fun st =>
    {| stringsBank := stringsBank st ++ [r];
       stringsFile := stringsFile st;
       res := res st |}).

(** [stringsBank.splice(index, 1)]. *)
Definition splice1 (index : nat) : M unit :=
  modify (fun st =>
    {| stringsBank := firstn index (stringsBank st)
                      ++ skipn (S index) (stringsBank st);
       stringsFile := stringsFile st;
       res := res st |}).

(** [await fs.writeFile(stringsFilePath, JSON.stringify(stringsBank))]. *)
Definition writeFile (env : Env) : M unit :=
  fun st =>
    if writeFile_ok env then
      (inr tt,
       {| stringsBank := stringsBank st;
          stringsFile := Some (stringsBank st);
          res := res st |})
    else
      (inl IOError,
       {| stringsBank := stringsBank st;
          stringsFile :=
            after_failed_write env (stringsFile st) (stringsBank st);
          res := res st |}).

Definition decodeURIComponentM (s : jsstring) : M jsstring :=
  match decodeURIComponent s with
  | Some d => ret d
  | None => throw URIError
  end.

(** [const { value } = req.body]: destructuring [null] throws; an object
    gives its own property or [undefined] ([None]); numbers, booleans,
    strings and arrays have no property of that name. *)
Definition destructure_value (b : JSValue) : M (option JSValue) :=
  match b with
  | JNull => throw TypeError
  | JObj fields => ret (Map_get fields (js "value"))
  | _ => ret None
  end.

Definition InternalServerError : Body := BodyError (js "Internal server error").

(** The state in which a request finds the server: nothing written yet. *)
Definition fresh (bank : list StringRecord) (file : option (list StringRecord))
  : State :=
  {| stringsBank := bank; stringsFile := file; res := None |}.

(** The state after a response has been written to a fresh request. *)
Definition responded (bank : list StringRecord)
  (file : option (list StringRecord)) (code : Z) (b : Body) : State :=
  {| stringsBank := bank; stringsFile := file;
     res := Some {| statusCode := code; body := b |} |}.

(** ** Handlers *)

Section Handlers.

(** The digest function of [hashing-engine.js], taken to return a text for
    every value. *)
Variable hashString : jsstring -> jsstring.

(** The handler [await]s twice, the digest and then the write of the file.
    [finalHandler] is the run in which no other request is handled during
    those waits: the collection read by the duplicate check is the one the
    record is pushed on, and the collection pushed on is the one written. *)
Definition finalHandler (env : Env) (req : Request) : M unit :=
  try_catch
    (v <- destructure_value (req_body req) ;;
     match v with
     | None =>
         send 400 (BodyError (js "Invalid request body or missing 'value' field"))
     | Some (JStr val) =>
         bank <- gets stringsBank ;;
         if existsb (fun el => str_eqb (value el) val) bank then
           send 409 (BodyError (js "String already exists in the system"))
         else
           let hashedString := hashString val in
           let r := responseObject hashedString val (now env) in
           push r ;;
           writeFile env ;;
           send 201 (BodySuccess r)
     | Some _ =>
         send 422 (BodyError (js "Invalid data type for 'value' (must be string)"))
     end)
    (fun error => send 500 InternalServerError).

(** [stringsBank.find(p)]. *)
Definition find_record (p : StringRecord -> bool) (bank : list StringRecord)
  : option StringRecord := List.find p bank.

Definition getStringHandler (stringValue : jsstring) : M unit :=
  decodedValue <- decodeURIComponentM stringValue ;;
  bank <- gets stringsBank ;;
  match find_record (fun el => str_eqb (value el) decodedValue) bank with
  | Some foundStringData => send 200 (BodySuccess foundStringData)
  | None => send 404 (BodyError (js "String does not exist in the system"))
  end.

(** [query.name], [None] when it is [undefined]. *)
Definition query_get (q : Query) (name : string) : option QueryValue :=
  Map_get q (js name).

(** [parseInt(v)] followed by the [isNaN] test that throws. *)
Definition parseIntOrThrow (v : QueryValue) (message : string) : M Z :=
  match parseInt (QueryValue_toString v) with
  | Some n => ret n
  | None => throw (Error (js message))
  end.

Definition FilterState : Type := list StringRecord * JSObject FilterValue.

(** The body of the [try] block of [getAllStringsHandler]: [results] and
    [filters_applied] after the five conditional filters. *)
Definition applyFilters (query : Query) (start : FilterState) : M FilterState :=
  let s1 :=
    match query_get query "is_palindrome" with
    | Some v =>
        let isPalindrome :=
          match v with QStr s => str_eqb s (js "true") | QArr _ => false end in
        (filter (fun s => Bool.eqb (is_palindrome (properties s)) isPalindrome)
                (fst start),
         obj_set (js "is_palindrome") (FBool isPalindrome) (snd start))
    | None => start
    end in
  s2 <- match query_get query "min_length" with
        | Some v =>
            min <- parseIntOrThrow v "Invalid min_length" ;;
            ret (filter (fun s => (min <=? length_ (properties s))%Z) (fst s1),
                 obj_set (js "min_length") (FNum (Some min)) (snd s1))
        | None => ret s1
        end ;;
  s3 <- match query_get query "max_length" with
        | Some v =>
            max <- parseIntOrThrow v "Invalid max_length" ;;
            ret (filter (fun s => (length_ (properties s) <=? max)%Z) (fst s2),
                 obj_set (js "max_length") (FNum (Some max)) (snd s2))
        | None => ret s2
        end ;;
  s4 <- match query_get query "word_count" with
        | Some v =>
            count <- parseIntOrThrow v "Invalid word_count" ;;
            ret (filter (fun s => (word_count (properties s) =? count)%Z) (fst s3),
                 obj_set (js "word_count") (FNum (Some count)) (snd s3))
        | None => ret s3
        end ;;
  ret match query_get query "contains_character" with
      | Some v =>
          (filter (fun s => includes (value s) (QueryValue_toString v)) (fst s4),
           obj_set (js "contains_character") (FQuery v) (snd s4))
      | None => s4
      end.

Definition InvalidQuery : Body :=
  BodyError (js "Invalid query parameter values or types").

Definition getAllStringsHandler (query : Query) : M unit :=
  bank <- gets stringsBank ;;
  outcome <- try_catch
               (s <- applyFilters query (bank, []) ;; ret (Some s))
               (fun error => send 400 InvalidQuery ;; ret None) ;;
  match outcome with
  | None => ret tt
  | Some (results, filters_applied) =>
      send 200 (BodyList results (Z.of_nat (List.length results)) filters_applied)
  end.

(** The five heuristic rules, applied to [parsed_filters] and [results]
    one after the other. *)
Definition rule_palindromic (originalQuery : jsstring) (s : FilterState)
  : FilterState :=
  if includes originalQuery (js "palindromic") then
    (filter (fun r => Bool.eqb (is_palindrome (properties r)) true) (fst s),
     obj_set (js "is_palindrome") (FBool true) (snd s))
  else s.

Definition rule_single_word (originalQuery : jsstring) (s : FilterState)
  : FilterState :=
  if includes originalQuery (js "single word") then
    (filter (fun r => (word_count (properties r) =? 1)%Z) (fst s),
     obj_set (js "word_count") (FNum (Some 1%Z)) (snd s))
  else s.

(** [length >= min], false when [min] is [NaN]. *)
Definition geq_number (x : Z) (min : option Z) : bool :=
  match min with
  | Some m => (m <=? x)%Z
  | None => false
  end.

Definition rule_longer_than (originalQuery : jsstring) (s : FilterState)
  : FilterState :=
  match match_longer_than originalQuery with
  | Some group1 =>
      let min := option_map (fun n => number_add n 1) (parseInt group1) in
      (filter (fun r => geq_number (length_ (properties r)) min) (fst s),
       obj_set (js "min_length") (FNum min) (snd s))
  | None => s
  end.

Definition rule_containing (originalQuery : jsstring) (s : FilterState)
  : FilterState :=
  match match_containing_the_letter originalQuery with
  | Some char =>
      (filter (fun r => includes (value r) char) (fst s),
       obj_set (js "contains_character") (FQuery (QStr char)) (snd s))
  | None => s
  end.

Definition rule_first_vowel (originalQuery : jsstring) (s : FilterState)
  : FilterState :=
  if match_first_vowel originalQuery then
    (filter (fun r => includes (value r) (js "a")) (fst s),
     obj_set (js "contains_character") (FQuery (QStr (js "a"))) (snd s))
  else s.

Definition naturalLanguageHandler (query : Query) : M unit :=
  match query_get query "query" with
  | None | Some (QStr []) =>
      send 400 (BodyError (js "Missing 'query' parameter"))
  | Some (QArr _) =>
      (* an array is truthy and has [includes], but no [match] method *)
      throw TypeError
  | Some (QStr originalQuery) =>
      bank <- gets stringsBank ;;
      let s0 : FilterState := (bank, []) in
      let s1 := rule_palindromic originalQuery s0 in
      let s2 := rule_single_word originalQuery s1 in
      let s3 := rule_longer_than originalQuery s2 in
      let s4 := rule_containing originalQuery s3 in
      let s5 := rule_first_vowel originalQuery s4 in
      send 200 (BodyNatural (fst s5) (Z.of_nat (List.length (fst s5)))
                            originalQuery (snd s5))
  end.

(** [stringsBank.findIndex(p)], [None] for [-1]. *)
Fixpoint findIndex (p : StringRecord -> bool) (bank : list StringRecord)
  : option nat :=
  match bank with
  | [] => None
  | el :: rest =>
      if p el then Some 0%nat else option_map S (findIndex p rest)
  end.

(** The handler [await]s the write of the file; [deleteStringHandler] is
    the run in which no other request is handled during that wait. *)
Definition deleteStringHandler (env : Env) (stringValue : jsstring) : M unit :=
  try_catch
    (decodedValue <- decodeURIComponentM stringValue ;;
     bank <- gets stringsBank ;;
     match findIndex (fun el => str_eqb (value el) decodedValue) bank with
     | None =>
         send 404 (BodyError (js "String does not exist in the system"))
     | Some index =>
         splice1 index ;;
         writeFile env ;;
         send 204 BodyEmpty
     end)
    (fun error => send 500 InternalServerError).

(** ** Middleware and router *)

(** The two parsers of the run-time library used on the request payload. *)
Variable JSON_parse : jsstring -> option JSValue.
Variable URLSearchParams_entries : jsstring -> list (jsstring * jsstring).

Definition set_body (req : Request) (b : JSValue) : Request :=
  {| method := method req;
     pathname := pathname req;
     query := query req;
     content_type := content_type req;
     payload := payload req;
     req_body := b |}.

Definition opt_str_eqb (a : option jsstring) (b : string) : bool :=
  match a with
  | Some s => str_eqb s (js b)
  | None => false
  end.

(** A middleware receives the request and the continuation [next]. *)
Definition Middleware : Type := Request -> (Request -> M unit) -> M unit.

(** The [try] of the source also encloses the [next()] of the empty-payload
    case; nothing reached from there throws synchronously. *)
Definition convertStream : Middleware := fun req next =>
  let req := set_body req (JObj []) in
  if negb (str_eqb (method req) (js "POST")) then next req
  else
    let body := payload req in
    if (List.length body =? 0)%nat then next req
    else if opt_str_eqb (content_type req) "application/json" then
      match JSON_parse body with
      | Some parsed => next (set_body req parsed)
      | None => send 400 (BodyError (js "Invalid JSON format"))
      end
    else if opt_str_eqb (content_type req) "application/x-www-form-urlencoded" then
      next (set_body req
              (JObj (Object_fromEntries
                       (map (fun kv => (fst kv, JStr (snd kv)))
                            (URLSearchParams_entries body)))))
    else next req.

Definition middlewareStack : list Middleware := [convertStream].

(** [urlParts[i] === s]. *)
Definition part_is (urlParts : list jsstring) (i : nat) (s : string) : bool :=
  match nth_error urlParts i with
  | Some p => str_eqb p (js s)
  | None => false
  end.

(** The [else if] chain of [next], reached once the middleware stack is
    exhausted. *)
Definition router (env : Env) (req : Request) : M unit :=
  let urlParts := split_on 47 (pathname req) in
  if str_eqb (pathname req) (js "/strings") && str_eqb (method req) (js "POST")
  then finalHandler env req
  else if str_eqb (pathname req) (js "/strings") && str_eqb (method req) (js "GET")
  then getAllStringsHandler (query req)
  else if str_eqb (pathname req) (js "/strings/filter-by-natural-language")
          && str_eqb (method req) (js "GET")
  then naturalLanguageHandler (query req)
  else if part_is urlParts 1 "strings" && (List.length urlParts =? 3)%nat
          && str_eqb (method req) (js "GET")
  then getStringHandler (nth 2 urlParts [])
  else if part_is urlParts 1 "strings" && (List.length urlParts =? 3)%nat
          && str_eqb (method req) (js "DELETE")
  then deleteStringHandler env (nth 2 urlParts [])
  else send 404 (BodyError (js "Route not found")).

(** [next]: run the middleware that is left, then the router. *)
Fixpoint next (env : Env) (stack : list Middleware) (req : Request) : M unit :=
  match stack with
  | mw :: rest => mw req (next env rest)
  | [] => router env req
  end.

(** The request listener. *)
Definition server (env : Env) (req : Request) : M unit :=
  next env middlewareStack req.

End Handlers.

(** ** Start-up: loading [strings.json] *)

(** What [fs.readFile] and then [JSON.parse] make of the storage: the read
    is rejected with an error carrying a [code], or it resolves to a text
    which [JSON.parse] turns into a value or rejects. *)
Inductive StorageRead :=
| ReadRejected (code : jsstring)
| ReadResolved (parsed : option JSValue).

Inductive LogLine :=
| LogLoaded
| LogNoFile
| LogFailed.

(** The errors of the start-up block, with their [code] property. *)
Definition error_code (r : StorageRead) : option jsstring :=
  match r with
  | ReadRejected code => Some code
  | ReadResolved _ => None
  end.

(** The top-level [try]/[catch]: the collection after start-up and the
    line logged.  The collection starts as the empty array and is assigned
    only when both the read and the parse succeed. *)
Definition loadStringsBank (r : StorageRead) : JSValue * LogLine :=
  let stringsBank := JArr [] in
  match r with
  | ReadResolved (Some data) => (data, LogLoaded)
  | _ =>
      if opt_str_eqb (error_code r) "ENOENT"
      then (stringsBank, LogNoFile)
      else (stringsBank, LogFailed)
  end.

(** ** Vocabulary of the statements *)

(** The ['value'] field of a structured body, [None] when it has none. *)
Definition value_field (b : JSValue) : option JSValue :=
  match b with
  | JObj fields => Map_get fields (js "value")
  | _ => None
  end.

(** A query without any of the five filter parameters. *)
Definition unfiltered (q : Query) : Prop :=
  query_get q "is_palindrome" = None /\ query_get q "min_length" = None
  /\ query_get q "max_length" = None /\ query_get q "word_count" = None
  /\ query_get q "contains_character" = None.

(** The test of the handler: a parameter is present and [parseInt] of its
    value is [NaN]. *)
Definition non_numeric (q : Query) (name : string) : bool :=
  match query_get q name with
  | Some v =>
      match parseInt (QueryValue_toString v) with
      | Some _ => false
      | None => true
      end
  | None => false
  end.

(** The first of the integer parameters, in the declared order, which is
    present and non-numeric. *)
Definition first_failing (q : Query) : option string :=
  if non_numeric q "min_length" then Some "min_length"%string
  else if non_numeric q "max_length" then Some "max_length"%string
  else if non_numeric q "word_count" then Some "word_count"%string
  else None.








(** The records a natural-language query keeps: every rule the query
    triggers must hold of the record. *)
Definition nl_keeps (originalQuery : jsstring) (r : StringRecord) : bool :=
  (if includes originalQuery (js "palindromic")
   then is_palindrome (properties r) else true)
  && (if includes originalQuery (js "single word")
      then (word_count (properties r) =? 1)%Z else true)
  && match match_longer_than originalQuery with
     | Some N =>
         geq_number (length_ (properties r))
                    (option_map (fun n => number_add n 1) (parseInt N))
     | None => true
     end
  && match match_containing_the_letter originalQuery with
     | Some X => includes (value r) X
     | None => true
     end
  && (if match_first_vowel originalQuery
      then includes (value r) (js "a") else true).

(** The five rules one after the other, as the handler applies them. *)
Definition nl_rules (originalQuery : jsstring) (s : FilterState) : FilterState :=
  rule_first_vowel originalQuery
    (rule_containing originalQuery
       (rule_longer_than originalQuery
          (rule_single_word originalQuery
             (rule_palindromic originalQuery s)))).

(** A stored record as [JSON.parse] returns it. *)
Definition is_record (v : JSValue) : bool :=
  match v with
  | JObj fields =>
      match Map_get fields (js "id"), Map_get fields (js "value"),
            Map_get fields (js "properties"), Map_get fields (js "created_at")
      with
      | Some (JStr _), Some (JStr _), Some (JObj _), Some (JStr _) => true
      | _, _, _, _ => false
      end
  | _ => false
  end.

(** The storage deserialises to a well-formed array of records. *)
Definition is_record_array (r : StorageRead) : bool :=
  match r with
  | ReadResolved (Some (JArr items)) => forallb is_record items
  | _ => false
  end.

(** A path segment for a value: every [%] written [%25], the other code
    units as they are. *)
Definition escape_percent (v : jsstring) : jsstring :=
  flat_map (fun c => if N.eqb c PERCENT then js "%25" else [c]) v.

(** Two states with the same collection and the same storage file. *)
Definition same_store (st st' : State) : Prop :=
  stringsBank st' = stringsBank st /\ stringsFile st' = stringsFile st.

(** ** Values used by the worked examples *)

(** A stand-in for the digest: the statements hold for every digest
    function, and the examples need one to run. *)
Definition example_digest (s : jsstring) : jsstring := js "sha256:" ++ s.

Definition example_env : Env :=
  {| now := js "2025-10-22T08:00:00.000Z"; writeFile_ok := true;
     writeFile_failure := LeavesOldFile |}.

(** The same clock with a disk on which every write fails part-way. *)
Definition example_env_failing : Env :=
  {| now := js "2025-10-22T08:00:00.000Z"; writeFile_ok := false;
     writeFile_failure := LeavesDamagedFile |}.

(** [POST /strings] with the parsed body [{"value": v}]. *)
Definition example_post (v : string) : Request :=
  {| method := js "POST";
     pathname := js "/strings";
     query := [];
     content_type := Some (js "application/json");
     payload := js "{}";
     req_body := JObj [(js "value", JStr (js v))] |}.

(** [GET path?query]. *)
Definition example_get (path : string) (q : Query) : Request :=
  {| method := js "GET";
     pathname := js path;
     query := q;
     content_type := None;
     payload := [];
     req_body := JObj [] |}.

(** The record the create handler builds for a value. *)
Definition example_record (v : string) : StringRecord :=
  responseObject (example_digest (js v)) (js v) (now example_env).

(** ** Vocabulary of the further properties *)

(** The collection without the first record that satisfies [p]. *)
Fixpoint remove_first (p : StringRecord -> bool) (bank : list StringRecord)
  : list StringRecord :=
  match bank with
  | [] => []
  | el :: rest => if p el then rest else el :: remove_first p rest
  end.

(** No two records of the collection have the same value. *)
Definition unique_values (bank : list StringRecord) : Prop :=
  NoDup (map value bank).

(** The properties of a record are those the analyzer computes from its
    value. *)
Definition analysed (r : StringRecord) : Prop :=
  r = responseObject (id r) (value r) (created_at r).

(** [query.is_palindrome === "true"]. *)
Definition is_true_text (v : QueryValue) : bool :=
  match v with
  | QStr s => str_eqb s (js "true")
  | QArr _ => false
  end.

(** The records a list query keeps: every filter parameter that is present
    must hold of the record. *)
Definition list_keeps (q : Query) (r : StringRecord) : bool :=
  match query_get q "is_palindrome" with
  | Some v => Bool.eqb (is_palindrome (properties r)) (is_true_text v)
  | None => true
  end
  && match query_get q "min_length" with
     | Some v =>
         geq_number (length_ (properties r))
                    (parseInt (QueryValue_toString v))
     | None => true
     end
  && match query_get q "max_length" with
     | Some v =>
         match parseInt (QueryValue_toString v) with
         | Some max => (length_ (properties r) <=? max)%Z
         | None => false
         end
     | None => true
     end
  && match query_get q "word_count" with
     | Some v =>
         match parseInt (QueryValue_toString v) with
         | Some count => (word_count (properties r) =? count)%Z
         | None => false
         end
     | None => true
     end
  && match query_get q "contains_character" with
     | Some v => includes (value r) (QueryValue_toString v)
     | None => true
     end.

(** The names of the filter parameters, in the order of the handler. *)
Definition filter_names : list string :=
  ["is_palindrome"; "min_length"; "max_length"; "word_count";
   "contains_character"]%string.

Definition present (q : Query) (name : string) : bool :=
  match query_get q name with Some _ => true | None => false end.

(** The number of words of a string: the code units which are not white
    space and which start the string or follow a white space. *)
Fixpoint word_starts (after_space : bool) (s : jsstring) : nat :=
  match s with
  | [] => 0
  | c :: t =>
      if isWhiteSpace c then word_starts true t
      else (if after_space then 1 else 0) + word_starts false t
  end.

(** Whether the last code unit of a string is white space; [default] for
    the empty string. *)
Fixpoint ends_with_space (default : bool) (s : jsstring) : bool :=
  match s with
  | [] => default
  | c :: t => ends_with_space (isWhiteSpace c) t
  end.

(** The sum of the counts of a frequency map. *)
Definition total_count (m : list (jsstring * Z)) : Z :=
  fold_right (fun kv acc => (snd kv + acc)%Z) 0%Z m.

(** What one request, handled with no other request between its [await]s,
    may do to the collection and the file: nothing; or append the record of
    a value which no record had, the file following unless the write failed
    and 500 was answered; or remove the first record of a value which some
    record had, the file following unless the write failed and 500 was
    answered.  After a failed write the file is whatever the failure left
    of it. *)
Definition store_step (hashString : jsstring -> jsstring)
  (bank : list StringRecord) (file : option (list StringRecord))
  (st' : State) : Prop :=
  (stringsBank st' = bank /\ stringsFile st' = file)
  \/ (exists val now,
        existsb (fun el => str_eqb (value el) val) bank = false
        /\ stringsBank st'
           = bank ++ [responseObject (hashString val) val now]
        /\ (stringsFile st' = Some (stringsBank st')
            \/ res st' = Some {| statusCode := 500;
                                 body := InternalServerError |}))
  \/ (exists decodedValue,
        existsb (fun el => str_eqb (value el) decodedValue) bank = true
        /\ stringsBank st'
           = remove_first (fun el => str_eqb (value el) decodedValue) bank
        /\ (stringsFile st' = Some (stringsBank st')
            \/ res st' = Some {| statusCode := 500;
                                 body := InternalServerError |})).




(** Stand-ins for the two parsers of the run-time library: a [JSON.parse]
    which reads every payload as [{"value": v}], and a form parser which
    reads every payload as the single pair [value=v]. *)
Definition example_JSON_parse (v : string) (payload : jsstring)
  : option JSValue :=
  Some (JObj [(js "value", JStr (js v))]).

Definition example_form_entries (v : string) (payload : jsstring)
  : list (jsstring * jsstring) :=
  [(js "value", js v)].

(** * Properties *)

(** ** Strings *)

Lemma str_eqb_eq (a b : jsstring) : str_eqb a b = true <-> a = b.
Proof.
  revert b; induction a as [|x a IH]; destruct b as [|y b]; simpl;
    try (split; congruence).
  rewrite andb_true_iff, N.eqb_eq, IH. split.
  - intros [-> ->]; reflexivity.
  - intros H; injection H; auto.
Qed.

Lemma str_eqb_refl (a : jsstring) : str_eqb a a = true.
Proof. apply str_eqb_eq; reflexivity. Qed.

Lemma str_eqb_neq (a b : jsstring) : str_eqb a b = false <-> a <> b.
Proof.
  rewrite <- str_eqb_eq. destruct (str_eqb a b); split; congruence.
Qed.

Lemma str_eqb_sym (a b : jsstring) : str_eqb a b = str_eqb b a.
Proof.
  destruct (str_eqb a b) eqn:E.
  - apply str_eqb_eq in E; subst; symmetry; apply str_eqb_refl.
  - symmetry; apply str_eqb_neq; apply str_eqb_neq in E; congruence.
Qed.

Definition jsstring_eq_dec : forall a b : jsstring, {a = b} + {a <> b} :=
  list_eq_dec N.eq_dec.

(** Reversing the one-unit pieces and joining them reverses the string. *)
Lemma join_rev_split (s : jsstring) :
  join_empty (rev (split_empty s)) = rev s.
Proof.
  unfold join_empty, split_empty.
  induction s as [|c s IH]; simpl; [reflexivity|].
  rewrite concat_app, IH; simpl. reflexivity.
Qed.

(** An induction principle that follows [chars]. *)
Lemma chars_ind (P : jsstring -> Prop) :
  P [] ->
  (forall c, P [c]) ->
  (forall c d t, P t -> P (d :: t) -> P (c :: d :: t)) ->
  forall s, P s.
Proof.
  intros H0 H1 H2.
  assert (both : forall s, P s /\ forall c, P (c :: s)).
  { induction s as [|d t [IHt IHc]]; split; auto. }
  intros s; apply both.
Qed.

(** Every character of the iteration is made of code units of the
    string. *)
Lemma chars_units (s : jsstring) :
  forall ch c, In ch (chars s) -> In c ch -> In c s.
Proof.
  induction s as [| c0 | c0 d t IHt IHd] using chars_ind; intros ch c Hch Hc.
  - destruct Hch.
  - simpl in Hch. destruct Hch as [<-|[]]. exact Hc.
  - cbn [chars] in Hch.
    destruct (isHighSurrogate c0 && isLowSurrogate d).
    + destruct Hch as [<-|Hch].
      * destruct Hc as [<-|[<-|[]]]; simpl; auto.
      * right; right. eapply IHt; eauto.
    + destruct Hch as [<-|Hch].
      * destruct Hc as [<-|[]]; simpl; auto.
      * right. eapply IHd; eauto.
Qed.

(** A code unit which is not a surrogate is a character of its own. *)
Lemma chars_single (s : jsstring) (c : N) :
  isHighSurrogate c = false -> isLowSurrogate c = false ->
  In c s -> In [c] (chars s).
Proof.
  intros Hh Hl.
  induction s as [| c0 | c0 d t IHt IHd] using chars_ind; intros Hin.
  - destruct Hin.
  - destruct Hin as [<-|[]]. simpl; auto.
  - cbn [chars].
    destruct (isHighSurrogate c0 && isLowSurrogate d) eqn:E.
    + apply andb_true_iff in E as [E1 E2].
      destruct Hin as [<-|[<-|Hin]]; [congruence|congruence|].
      right; auto.
    + destruct Hin as [<-|Hin]; [left; reflexivity|].
      right; apply IHd; exact Hin.
Qed.

(** Without surrogates the characters are the code units, so that
    reversing by character and reversing by code unit are the same. *)
Lemma chars_without_surrogates (s : jsstring) :
  (forall c, In c s -> isHighSurrogate c = false) ->
  chars s = split_empty s.
Proof.
  induction s as [| c0 | c0 d t IHt IHd] using chars_ind; intros Hs.
  - reflexivity.
  - reflexivity.
  - change (chars (c0 :: d :: t))
      with (if isHighSurrogate c0 && isLowSurrogate d
            then [c0; d] :: chars t else [c0] :: chars (d :: t)).
    rewrite (Hs c0) by (left; reflexivity).
    cbn [andb]. rewrite IHd by (intros c Hc; apply Hs; right; exact Hc).
    reflexivity.
Qed.

(** ** Maps, sets and objects *)

Section Containers.

Context {V : Type}.
Implicit Types (m o : list (jsstring * V)) (k : jsstring) (v : V).

Lemma Map_get_set_same m k v : Map_get (Map_set m k v) k = Some v.
Proof.
  induction m as [|[k' v'] m IH]; simpl.
  - rewrite str_eqb_refl; reflexivity.
  - destruct (str_eqb k' k) eqn:E; simpl; rewrite E; auto.
Qed.

Lemma Map_get_set_other m k k' v :
  k <> k' -> Map_get (Map_set m k v) k' = Map_get m k'.
Proof.
  intros Hne. induction m as [|[k0 v0] m IH]; simpl.
  - apply str_eqb_neq in Hne. rewrite Hne; reflexivity.
  - destruct (str_eqb k0 k) eqn:E; simpl.
    + apply str_eqb_eq in E; subst k0.
      apply str_eqb_neq in Hne. rewrite Hne; reflexivity.
    + rewrite IH; reflexivity.
Qed.

Lemma Map_get_app m1 m2 k :
  Map_get (m1 ++ m2) k =
  match Map_get m1 k with Some v => Some v | None => Map_get m2 k end.
Proof.
  induction m1 as [|[k0 v0] m1 IH]; simpl; [reflexivity|].
  destruct (str_eqb k0 k); auto.
Qed.

Lemma Map_get_None m k : Map_get m k = None <-> ~ In k (map fst m).
Proof.
  induction m as [|[k0 v0] m IH]; simpl.
  - tauto.
  - destruct (str_eqb k0 k) eqn:E.
    + apply str_eqb_eq in E. split; [discriminate | tauto].
    + apply str_eqb_neq in E. rewrite IH. tauto.
Qed.

Lemma Map_get_In m k v : In (k, v) m -> Map_get m k <> None.
Proof.
  intros Hin Hnone. apply Map_get_None in Hnone. apply Hnone.
  apply (in_map fst) in Hin. exact Hin.
Qed.

Lemma Map_set_keys m k v x :
  In x (map fst (Map_set m k v)) <-> x = k \/ In x (map fst m).
Proof.
  induction m as [|[k0 v0] m IH]; simpl.
  - intuition.
  - destruct (str_eqb k0 k) eqn:E; simpl.
    + apply str_eqb_eq in E; subst. intuition.
    + rewrite IH. intuition.
Qed.

Lemma Map_set_NoDup m k v :
  NoDup (map fst m) -> NoDup (map fst (Map_set m k v)).
Proof.
  induction m as [|[k0 v0] m IH]; simpl; intros Hnd.
  - constructor; [intros []|constructor].
  - inversion Hnd as [|? ? Hnotin Hnd']; subst.
    destruct (str_eqb k0 k) eqn:E; simpl.
    + constructor; assumption.
    + constructor; [|auto].
      rewrite Map_set_keys. apply str_eqb_neq in E. intuition.
Qed.

Lemma insert_index_get i m k v k' :
  Map_get m k = None ->
  Map_get (insert_index i k v m) k' =
  if str_eqb k k' then Some v else Map_get m k'.
Proof.
  induction m as [|[k0 v0] m IH]; simpl; intros Hnone.
  - reflexivity.
  - destruct (str_eqb k0 k) eqn:E0; [discriminate|].
    assert (Hcons : Map_get ((k, v) :: (k0, v0) :: m) k' =
                    if str_eqb k k' then Some v
                    else if str_eqb k0 k' then Some v0 else Map_get m k')
      by reflexivity.
    destruct (arrayIndex k0) as [j|]; [|exact Hcons].
    destruct (j <? i)%N; [|exact Hcons].
    simpl. rewrite (IH Hnone).
    destruct (str_eqb k0 k') eqn:E1; [|reflexivity].
    destruct (str_eqb k k') eqn:E2; [|reflexivity].
    apply str_eqb_eq in E1, E2. subst.
    rewrite str_eqb_refl in E0. discriminate.
Qed.

Lemma obj_set_get o k v k' :
  Map_get (obj_set k v o) k' = if str_eqb k k' then Some v else Map_get o k'.
Proof.
  unfold obj_set. destruct (Map_get o k) as [v0|] eqn:E.
  - destruct (str_eqb k k') eqn:E'.
    + apply str_eqb_eq in E'; subst. apply Map_get_set_same.
    + apply Map_get_set_other. apply str_eqb_neq; exact E'.
  - destruct (arrayIndex k) as [i|].
    + apply insert_index_get; exact E.
    + rewrite Map_get_app. simpl.
      destruct (str_eqb k k') eqn:E'.
      * apply str_eqb_eq in E'; subst. rewrite E. reflexivity.
      * destruct (Map_get o k'); reflexivity.
Qed.

(** Turning a map with distinct keys into an object keeps every lookup;
    only the order of the properties may change. *)
Lemma fromEntries_get_from (entries : list (jsstring * V)) :
  NoDup (map fst entries) ->
  forall o k,
    Map_get (fold_left (fun o kv => obj_set (fst kv) (snd kv) o) entries o) k =
    match Map_get entries k with Some v => Some v | None => Map_get o k end.
Proof.
  induction entries as [|[k0 v0] es IH]; simpl; intros Hnd o k.
  - reflexivity.
  - inversion Hnd as [|? ? Hnotin Hnd']; subst.
    rewrite IH by exact Hnd'. rewrite obj_set_get.
    destruct (str_eqb k0 k) eqn:E; [|reflexivity].
    apply str_eqb_eq in E; subst k0.
    apply Map_get_None in Hnotin. rewrite Hnotin. reflexivity.
Qed.

Lemma Object_fromEntries_get (entries : list (jsstring * V)) k :
  NoDup (map fst entries) ->
  Map_get (Object_fromEntries entries) k = Map_get entries k.
Proof.
  intros Hnd. unfold Object_fromEntries.
  rewrite fromEntries_get_from by exact Hnd. simpl.
  destruct (Map_get entries k); reflexivity.
Qed.

End Containers.

(** ** Analyzer *)

Lemma count_loop_get (l : list jsstring) :
  forall m k,
    Map_get (fold_left count_step l m) k =
    match count_occ jsstring_eq_dec l k with
    | O => Map_get m k
    | S n =>
        Some (match Map_get m k with Some x => x | None => 0%Z end
              + Z.of_nat (S n))%Z
    end.
Proof.
  induction l as [|c l IH]; intros m k; [reflexivity|].
  cbn [fold_left count_occ]. rewrite IH. unfold count_step.
  destruct (jsstring_eq_dec c k) as [->|Hne].
  - rewrite Map_get_set_same.
    destruct (count_occ jsstring_eq_dec l k); f_equal; lia.
  - rewrite Map_get_set_other by exact Hne.
    destruct (count_occ jsstring_eq_dec l k); reflexivity.
Qed.

Lemma count_loop_NoDup (l : list jsstring) :
  forall m, NoDup (map fst m) -> NoDup (map fst (fold_left count_step l m)).
Proof.
  induction l as [|c l IH]; intros m Hnd; [exact Hnd|].
  simpl. apply IH. apply Map_set_NoDup. exact Hnd.
Qed.

Lemma characterMap_get (value k : jsstring) :
  Map_get (characterMap value) k =
  match count_occ jsstring_eq_dec (chars (replaceAll_space value)) k with
  | O => None
  | S n => Some (Z.of_nat (S n))
  end.
Proof.
  unfold characterMap.
  rewrite Object_fromEntries_get
    by (apply count_loop_NoDup; constructor).
  unfold charCounts. rewrite count_loop_get. simpl.
  destruct (count_occ _ _ k); reflexivity.
Qed.

Lemma replaceAll_space_free (value : jsstring) :
  ~ In SPACE (replaceAll_space value).
Proof.
  unfold replaceAll_space. intros Hin. apply filter_In in Hin as [_ H].
  rewrite N.eqb_refl in H. discriminate.
Qed.

Lemma characterMap_no_space (value : jsstring) :
  Map_get (characterMap value) [SPACE] = None.
Proof.
  rewrite characterMap_get.
  destruct (count_occ _ _ _) eqn:E; [reflexivity|].
  assert (Hin : In [SPACE] (chars (replaceAll_space value))).
  { apply (count_occ_In jsstring_eq_dec). lia. }
  exfalso. apply (replaceAll_space_free value).
  apply (chars_units _ _ SPACE Hin). left; reflexivity.
Qed.

Lemma Set_add_In (s : list jsstring) (x y : jsstring) :
  In y (Set_add s x) <-> y = x \/ In y s.
Proof.
  unfold Set_add. destruct (existsb (str_eqb x) s) eqn:E.
  - apply existsb_exists in E as [z [Hz Hxz]]. apply str_eqb_eq in Hxz.
    subst z. intuition (subst; auto).
  - rewrite in_app_iff. simpl. intuition.
Qed.

Lemma Set_add_NoDup (s : list jsstring) (x : jsstring) :
  NoDup s -> NoDup (Set_add s x).
Proof.
  intros Hnd. unfold Set_add. destruct (existsb (str_eqb x) s) eqn:E; [exact Hnd|].
  apply NoDup_app; [exact Hnd|constructor; [intros []|constructor]|].
  intros a Ha [Hx|[]]. subst a.
  assert (Hex : existsb (str_eqb x) s = true).
  { apply existsb_exists. exists x. split; [exact Ha|apply str_eqb_refl]. }
  congruence.
Qed.

Lemma Set_loop (l : list jsstring) :
  forall s, NoDup s ->
    NoDup (fold_left Set_add l s)
    /\ forall y, In y (fold_left Set_add l s) <-> In y l \/ In y s.
Proof.
  induction l as [|c l IH]; intros s Hnd; simpl.
  - split; [exact Hnd|]. intuition.
  - destruct (IH (Set_add s c) (Set_add_NoDup s c Hnd)) as [H1 H2].
    split; [exact H1|]. intros y. rewrite H2, Set_add_In. intuition.
Qed.

(** The size of [new Set(value)] is the number of distinct characters. *)
Lemma uniqueCharactersCount_distinct (value : jsstring) :
  uniqueCharactersCount value =
  Z.of_nat (List.length (nodup jsstring_eq_dec (chars value))).
Proof.
  unfold uniqueCharactersCount, Set_of_string. f_equal.
  destruct (Set_loop (chars value) [] (NoDup_nil _)) as [Hnd Hin].
  apply Permutation_length.
  apply NoDup_Permutation; [exact Hnd|apply NoDup_nodup|].
  intros y. rewrite Hin, nodup_In. simpl. intuition.
Qed.

(** C2.  The frequency map of a record counts the characters of the value
    with its spaces removed, so the space is never one of its keys, whereas
    [unique_characters] is the number of distinct characters of the value
    as it stands, a space included when there is one.  For ["a a"] the
    count is 2 and the map is [{"a": 2}]. *)
Theorem frequency_map_drops_spaces_unique_counts_them :
  forall hashedString value now : jsstring,
    let p := properties (responseObject hashedString value now) in
    (forall k,
        Map_get (character_frequency_map p) k =
        match count_occ jsstring_eq_dec (chars (replaceAll_space value)) k with
        | O => None
        | S n => Some (Z.of_nat (S n))
        end)
    /\ (forall k n, In (k, n) (character_frequency_map p) -> k <> [SPACE])
    /\ unique_characters p
       = Z.of_nat (List.length (nodup jsstring_eq_dec (chars value)))
    /\ (In SPACE value -> In [SPACE] (nodup jsstring_eq_dec (chars value)))
    /\ (let q := properties (responseObject hashedString (js "a a") now) in
        unique_characters q = 2%Z
        /\ character_frequency_map q = [(js "a", 2%Z)]).
Proof.
  intros hashedString value now p. subst p. cbn [properties responseObject
    character_frequency_map unique_characters].
  split; [intros k; apply characterMap_get|].
  split.
  { intros k n Hin ->. apply Map_get_In in Hin. apply Hin.
    apply characterMap_no_space. }
  split; [apply uniqueCharactersCount_distinct|].
  split.
  { intros Hin. apply nodup_In. apply chars_single; auto. }
  split; reflexivity.
Qed.

(** C3.  [is_palindrome] holds exactly for the non-empty values equal to
    their own reversal, code unit by code unit; it is false for the empty
    string. *)
Theorem is_palindrome_iff_nonempty_and_own_reversal :
  forall hashedString value now : jsstring,
    (is_palindrome (properties (responseObject hashedString value now)) = true
     <-> value <> [] /\ value = rev value)
    /\ is_palindrome (properties (responseObject hashedString [] now)) = false.
Proof.
  intros hashedString value now. split; [|reflexivity].
  cbn [properties responseObject is_palindrome]. unfold palindrome_test.
  rewrite andb_true_iff, Nat.ltb_lt, str_eqb_eq, join_rev_split.
  destruct value as [|c value]; simpl.
  - split; [lia|intros [H _]; congruence].
  - split; [intros [_ H]; split; [discriminate|congruence]|].
    intros [_ H]; split; [lia|congruence].
Qed.

(** ** Create *)

Ltac run :=
  unfold bind, ret, throw, try_catch, gets, modify, send, push, splice1,
    writeFile, decodeURIComponentM, fresh, responded; simpl.

Section Create.

Variable hashString : jsstring -> jsstring.

(** [const { value } = null] throws, and the catch-all answers 500. *)
Lemma finalHandler_null env req bank file :
  req_body req = JNull ->
  finalHandler hashString env req (fresh bank file)
  = (inr tt, responded bank file 500 InternalServerError).
Proof. intros Hb. unfold finalHandler. rewrite Hb. reflexivity. Qed.

(** The outcome of [finalHandler] on every body but [null]: the three
    checks in their order, then the creation. *)
Lemma finalHandler_checks env req bank file :
  req_body req <> JNull ->
  finalHandler hashString env req (fresh bank file)
  = (inr tt,
     match value_field (req_body req) with
     | None =>
         responded bank file 400
           (BodyError (js "Invalid request body or missing 'value' field"))
     | Some (JStr val) =>
         if existsb (fun el => str_eqb (value el) val) bank then
           responded bank file 409
             (BodyError (js "String already exists in the system"))
         else
           let r := responseObject (hashString val) val (now env) in
           if writeFile_ok env then
             responded (bank ++ [r]) (Some (bank ++ [r])) 201 (BodySuccess r)
           else
             responded (bank ++ [r]) (after_failed_write env file (bank ++ [r]))
               500 InternalServerError
     | Some _ =>
         responded bank file 422
           (BodyError (js "Invalid data type for 'value' (must be string)"))
     end).
Proof.
  intros Hb. unfold finalHandler.
  destruct (req_body req) as [| b | t | s | items | fields] eqn:E;
    try congruence; try reflexivity.
  unfold value_field, destructure_value.
  destruct (Map_get fields (js "value")) as [[| b | t | val | items | fs]|];
    try reflexivity.
  run. destruct (existsb _ bank); [reflexivity|].
  simpl. destruct (writeFile_ok env); reflexivity.
Qed.

(** A creation answered 201 appended exactly the record it returned. *)
Lemma finalHandler_201 env req bank file st' r :
  finalHandler hashString env req (fresh bank file) = (inr tt, st') ->
  res st' = Some {| statusCode := 201; body := BodySuccess r |} ->
  value_field (req_body req) = Some (JStr (value r))
  /\ existsb (fun el => str_eqb (value el) (value r)) bank = false
  /\ stringsBank st' = bank ++ [r]
  /\ stringsFile st' = Some (bank ++ [r]).
Proof.
  intros Hrun Hres.
  destruct (req_body req) as [| b | t | s | items | fields] eqn:E.
  1: { rewrite (finalHandler_null env req bank file E) in Hrun.
       injection Hrun as <-. discriminate Hres. }
  all: rewrite finalHandler_checks in Hrun by congruence;
    rewrite E in *; simpl in Hrun; try (injection Hrun as <-; discriminate Hres).
  simpl.
  destruct (Map_get fields (js "value")) as [[| b | t | val | items | fs]|];
    try (injection Hrun as <-; discriminate Hres).
  destruct (existsb _ bank) eqn:Ex;
    [injection Hrun as <-; discriminate Hres|].
  destruct (writeFile_ok env);
    [|injection Hrun as <-; discriminate Hres].
  injection Hrun as <-. simpl in Hres. injection Hres as <-.
  simpl. rewrite Ex. auto.
Qed.

End Create.

(** C1.  A POST whose JSON payload is [null] reaches [finalHandler] with a
    body that has no ['value'] field; destructuring it throws, so the
    answer is 500 "Internal server error" rather than the 400 of the first
    check.  The collection and the file are left as they were. *)
Theorem create_null_body_answers_500 :
  forall (hashString : jsstring -> jsstring) env req bank file,
    value_field (req_body (set_body req JNull)) = None
    /\ finalHandler hashString env (set_body req JNull) (fresh bank file)
       = (inr tt, responded bank file 500 InternalServerError).
Proof.
  intros. split; [reflexivity|]. apply finalHandler_null. reflexivity.
Qed.

(** Creating the same value again is answered 409, whatever the clock and
    the file system do the second time. *)
Lemma create_twice_201_then_409 (hashString : jsstring -> jsstring)
  env env' req bank file st' r :
  finalHandler hashString env req (fresh bank file) = (inr tt, st') ->
  res st' = Some {| statusCode := 201; body := BodySuccess r |} ->
  finalHandler hashString env' req (fresh (stringsBank st') (stringsFile st'))
  = (inr tt,
     responded (stringsBank st') (stringsFile st') 409
       (BodyError (js "String already exists in the system"))).
Proof.
  intros Hrun Hres.
  destruct (finalHandler_201 _ _ _ _ _ _ _ Hrun Hres)
    as (Hval & _ & Hbank & _).
  rewrite finalHandler_checks
    by (intros Hnull; rewrite Hnull in Hval; discriminate).
  rewrite Hval, Hbank, existsb_app. simpl.
  rewrite str_eqb_refl, orb_true_r. reflexivity.
Qed.

(** ** Get one *)

Lemma getStringHandler_run stringValue bank file :
  getStringHandler stringValue (fresh bank file) =
  match decodeURIComponent stringValue with
  | None => (inl URIError, fresh bank file)
  | Some decodedValue =>
      (inr tt,
       match find_record (fun el => str_eqb (value el) decodedValue) bank with
       | Some foundStringData =>
           responded bank file 200 (BodySuccess foundStringData)
       | None =>
           responded bank file 404
             (BodyError (js "String does not exist in the system"))
       end)
  end.
Proof.
  unfold getStringHandler. run.
  destruct (decodeURIComponent stringValue); [|reflexivity].
  simpl. destruct (find_record _ bank); reflexivity.
Qed.

Lemma find_record_appended (p : StringRecord -> bool) bank r :
  existsb p bank = false -> p r = true ->
  find_record p (bank ++ [r]) = Some r.
Proof.
  unfold find_record. induction bank as [|el bank IH]; simpl; intros Hex Hr.
  - rewrite Hr; reflexivity.
  - apply orb_false_iff in Hex as [Hel Hex]. rewrite Hel. auto.
Qed.

(** ** List *)

Lemma getAllStringsHandler_unfiltered q bank file :
  unfiltered q ->
  getAllStringsHandler q (fresh bank file)
  = (inr tt,
     responded bank file 200 (BodyList bank (Z.of_nat (List.length bank)) [])).
Proof.
  intros (H1 & H2 & H3 & H4 & H5).
  unfold getAllStringsHandler, applyFilters.
  rewrite H1, H2, H3, H4, H5. reflexivity.
Qed.

(** Every value has a path segment that decodes to it. *)
Lemma decodeURIComponent_escape_percent (v : jsstring) :
  decodeURIComponent (escape_percent v) = Some v.
Proof.
  induction v as [|c v IH]; [reflexivity|].
  unfold escape_percent in *. cbn [flat_map].
  destruct (N.eqb c PERCENT) eqn:E.
  - apply N.eqb_eq in E. subst c.
    change (js "%25" ++ flat_map
              (fun c => if N.eqb c PERCENT then js "%25" else [c]) v)
      with (PERCENT :: 50%N :: 53%N :: flat_map
              (fun c => if N.eqb c PERCENT then js "%25" else [c]) v).
    cbn [decodeURIComponent]. rewrite N.eqb_refl.
    change (parseHexOctet 50 53) with (Some PERCENT).
    change (PERCENT <? 128)%N with true. cbv iota. rewrite IH. reflexivity.
  - cbn [app decodeURIComponent]. rewrite E, IH. reflexivity.
Qed.

(** C7.  When a creation is answered 201 with a record, a get-one request
    for that value (any path segment that percent-decodes to it, and there
    is always one) made next is answered 200 with the very same record,
    hence the same properties, and an unfiltered list made next is answered
    200 with data that contain that record. *)
Theorem create_then_get_round_trip :
  forall (hashString : jsstring -> jsstring) env req bank file st' r,
    finalHandler hashString env req (fresh bank file) = (inr tt, st') ->
    res st' = Some {| statusCode := 201; body := BodySuccess r |} ->
    let bank' := stringsBank st' in
    let file' := stringsFile st' in
    value_field (req_body req) = Some (JStr (value r))
    /\ (forall stringValue,
          decodeURIComponent stringValue = Some (value r) ->
          getStringHandler stringValue (fresh bank' file')
          = (inr tt, responded bank' file' 200 (BodySuccess r)))
    /\ getStringHandler (escape_percent (value r)) (fresh bank' file')
       = (inr tt, responded bank' file' 200 (BodySuccess r))
    /\ (forall q,
          unfiltered q ->
          exists data filters_applied,
            getAllStringsHandler q (fresh bank' file')
            = (inr tt,
               responded bank' file' 200
                 (BodyList data (Z.of_nat (List.length data)) filters_applied))
            /\ In r data).
Proof.
  intros hashString env req bank file st' r Hrun Hres bank' file'.
  destruct (finalHandler_201 _ _ _ _ _ _ _ Hrun Hres)
    as (Hval & Hnew & Hbank & _).
  assert (Hget : forall stringValue,
             decodeURIComponent stringValue = Some (value r) ->
             getStringHandler stringValue (fresh bank' file')
             = (inr tt, responded bank' file' 200 (BodySuccess r))).
  { intros stringValue Hdec. rewrite getStringHandler_run, Hdec.
    subst bank'. rewrite Hbank.
    rewrite find_record_appended; auto using str_eqb_refl. }
  split; [exact Hval|]. split; [exact Hget|]. split.
  - apply Hget, decodeURIComponent_escape_percent.
  - intros q Hq. exists bank', []. split.
    + apply getAllStringsHandler_unfiltered; exact Hq.
    + subst bank'. rewrite Hbank. apply in_or_app. right. left. reflexivity.
Qed.

Lemma create_then_get_round_trip_witness :
  let r := example_record "level" in
  finalHandler example_digest example_env (example_post "level") (fresh [] None)
  = (inr tt, responded [r] (Some [r]) 201 (BodySuccess r))
  /\ decodeURIComponent (js "level") = Some (value r)
  /\ getStringHandler (js "level") (fresh [r] (Some [r]))
     = (inr tt, responded [r] (Some [r]) 200 (BodySuccess r)).
Proof.
  intros r. split; [reflexivity|]. split; [reflexivity|].
  exact (proj1 (proj2
    (create_then_get_round_trip example_digest example_env
       (example_post "level") [] None
       (responded [r] (Some [r]) 201 (BodySuccess r)) r
       eq_refl eq_refl)) (js "level") eq_refl).
Defined.

(** ** Router *)

Section Server.

Variable hashString : jsstring -> jsstring.
Variable JSON_parse : jsstring -> option JSValue.
Variable URLSearchParams_entries : jsstring -> list (jsstring * jsstring).

Let serve := server hashString JSON_parse URLSearchParams_entries.
Let route := router hashString.

(** The only middleware lets every request but a POST through, with an
    empty structured body. *)
Lemma server_not_POST env req :
  str_eqb (method req) (js "POST") = false ->
  serve env req = route env (set_body req (JObj [])).
Proof.
  intros Hm. unfold serve, server, middlewareStack, next, convertStream.
  simpl method. rewrite Hm. reflexivity.
Qed.

Lemma router_natural_language env req :
  method req = js "GET" ->
  pathname req = js "/strings/filter-by-natural-language" ->
  route env req = naturalLanguageHandler (query req).
Proof.
  intros Hm Hp. unfold route, router. rewrite Hm, Hp. reflexivity.
Qed.

Lemma router_get_one env req stringParam :
  method req = js "GET" ->
  split_on 47 (pathname req) = [[]; js "strings"; stringParam] ->
  pathname req <> js "/strings/filter-by-natural-language" ->
  route env req = getStringHandler stringParam.
Proof.
  intros Hm Hs Hp. unfold route, router. rewrite Hm, Hs.
  apply str_eqb_neq in Hp. rewrite Hp.
  assert (Hne : str_eqb (pathname req) (js "/strings") = false).
  { apply str_eqb_neq. intros E. rewrite E in Hs. discriminate Hs. }
  rewrite Hne. reflexivity.
Qed.

Lemma router_delete env req stringParam :
  method req = js "DELETE" ->
  split_on 47 (pathname req) = [[]; js "strings"; stringParam] ->
  route env req = deleteStringHandler env stringParam.
Proof.
  intros Hm Hs. unfold route, router. rewrite Hm, Hs.
  rewrite !andb_false_r. reflexivity.
Qed.

(** C5.  A GET of [/strings/filter-by-natural-language] is answered by the
    natural-language handler.  The rule of the get-one route holds of that
    request as well (three path parts, the second being [strings]), so it
    is the order of the rules which decides; and what the server does is
    never what the get-one handler would have done with that segment. *)
Theorem natural_language_route_wins :
  forall env req,
    method req = js "GET" ->
    pathname req = js "/strings/filter-by-natural-language" ->
    let urlParts := split_on 47 (pathname req) in
    (part_is urlParts 1 "strings" && (List.length urlParts =? 3)%nat
       && str_eqb (method req) (js "GET") = true
     /\ nth 2 urlParts [] = js "filter-by-natural-language")
    /\ (forall st, serve env req st = naturalLanguageHandler (query req) st)
    /\ (forall bank file,
          serve env req (fresh bank file)
          <> getStringHandler (js "filter-by-natural-language")
                              (fresh bank file)).
Proof.
  intros env req Hm Hp urlParts.
  assert (Hserve : forall st,
             serve env req st = naturalLanguageHandler (query req) st).
  { intros st. rewrite server_not_POST by (rewrite Hm; reflexivity).
    rewrite router_natural_language by assumption. reflexivity. }
  split; [|split; [exact Hserve|]].
  - subst urlParts. rewrite Hm, Hp. split; reflexivity.
  - intros bank file. rewrite Hserve, getStringHandler_run.
    replace (decodeURIComponent (js "filter-by-natural-language"))
      with (Some (js "filter-by-natural-language")) by reflexivity.
    unfold naturalLanguageHandler.
    destruct (query_get (query req) "query") as [[[|c originalQuery]|items]|];
      destruct (find_record _ bank); run; discriminate.
Qed.

(** C8.  A GET of [/strings/%] is routed to the get-one handler, whose
    [decodeURIComponent] throws outside any [try]: the request is left
    without a response.  The delete handler, which wraps the same call,
    answers 500 for the same path. *)
Theorem get_one_malformed_escape_gets_no_response :
  forall env q ct pl b bank file,
    let req verb :=
      {| method := js verb; pathname := js "/strings/%"; query := q;
         content_type := ct; payload := pl; req_body := b |} in
    serve env (req "GET"%string) (fresh bank file)
    = (inl URIError, fresh bank file)
    /\ res (snd (serve env (req "GET"%string) (fresh bank file))) = None
    /\ serve env (req "DELETE"%string) (fresh bank file)
       = (inr tt, responded bank file 500 InternalServerError).
Proof.
  intros env q ct pl b bank file req.
  assert (Hget : serve env (req "GET"%string) (fresh bank file)
                 = (inl URIError, fresh bank file)).
  { rewrite server_not_POST by reflexivity.
    rewrite (router_get_one env _ (js "%"));
      [apply getStringHandler_run | reflexivity | reflexivity | discriminate]. }
  split; [exact Hget|]. split; [rewrite Hget; reflexivity|].
  rewrite server_not_POST by reflexivity.
  rewrite (router_delete env _ (js "%")); reflexivity.
Qed.

End Server.

Lemma natural_language_route_wins_witness :
  let req := example_get "/strings/filter-by-natural-language"
               [(js "query", QStr (js "single word"))] in
  method req = js "GET"
  /\ pathname req = js "/strings/filter-by-natural-language"
  /\ forall st,
       server example_digest (fun _ => None) (fun _ => []) example_env req st
       = naturalLanguageHandler (query req) st.
Proof.
  intros req. split; [reflexivity|]. split; [reflexivity|].
  exact (proj1 (proj2
    (natural_language_route_wins example_digest (fun _ => None) (fun _ => [])
       example_env req eq_refl eq_refl))).
Defined.

(** ** Numbers out of strings *)

(** *** Digits *)

Lemma isDigit_range c : isDigit c = true -> (48 <= c <= 57)%N.
Proof.
  unfold isDigit. rewrite andb_true_iff, !N.leb_le. tauto.
Qed.

Lemma isDigit_not_white c : isDigit c = true -> isWhiteSpace c = false.
Proof.
  intros H. apply isDigit_range in H.
  assert (Hc : (c = 48 \/ c = 49 \/ c = 50 \/ c = 51 \/ c = 52 \/ c = 53
                \/ c = 54 \/ c = 55 \/ c = 56 \/ c = 57)%N) by lia.
  repeat destruct Hc as [->|Hc]; try subst c; reflexivity.
Qed.

Lemma radixDigit_decimal c :
  isDigit c = true -> radixDigit 10 c = Some (Z.of_N c - 48)%Z.
Proof.
  intros H. unfold radixDigit, digitValue. rewrite H.
  apply isDigit_range in H.
  replace (Z.of_N c - 48 <? 10)%Z with true; [reflexivity|].
  symmetry; apply Z.ltb_lt; lia.
Qed.

Lemma parseDigits_decimal ds :
  forallb isDigit ds = true ->
  forall acc,
    match acc with Some a => (0 <= a)%Z | None => True end ->
    ds <> [] \/ acc <> None ->
    exists n, parseDigits 10 acc ds = Some n /\ (0 <= n)%Z.
Proof.
  induction ds as [|c ds IH]; cbn [parseDigits forallb];
    intros Hall acc Hacc Hne.
  - destruct acc as [a|]; [eauto|]. destruct Hne; congruence.
  - apply andb_true_iff in Hall as [Hc Hall].
    rewrite (radixDigit_decimal c Hc). apply isDigit_range in Hc.
    apply IH; [exact Hall| |right; discriminate].
    destruct acc; cbv beta iota in *; lia.
Qed.

Lemma radixDigit_not_decimal c : isDigit c = false -> radixDigit 10 c = None.
Proof.
  intros H. unfold radixDigit, digitValue. rewrite H.
  destruct ((97 <=? c) && (c <=? 122))%N eqn:E1.
  - apply andb_true_iff in E1 as [E1 _]. apply N.leb_le in E1.
    replace (Z.of_N c - 87 <? 10)%Z with false; [reflexivity|].
    symmetry; apply Z.ltb_ge; lia.
  - destruct ((65 <=? c) && (c <=? 90))%N eqn:E2; [|reflexivity].
    apply andb_true_iff in E2 as [E2 _]. apply N.leb_le in E2.
    replace (Z.of_N c - 55 <? 10)%Z with false; [reflexivity|].
    symmetry; apply Z.ltb_ge; lia.
Qed.

Lemma parseDigits_stops ds c rest :
  forallb isDigit ds = true -> isDigit c = false ->
  forall acc, parseDigits 10 acc (ds ++ c :: rest) = parseDigits 10 acc ds.
Proof.
  intros Hall Hc. induction ds as [|d ds IH]; intros acc.
  - cbn [app parseDigits]. rewrite (radixDigit_not_decimal c Hc).
    reflexivity.
  - cbn [forallb] in Hall. apply andb_true_iff in Hall as [Hd Hall].
    cbn [app parseDigits]. rewrite (radixDigit_decimal d Hd). apply IH, Hall.
Qed.

Lemma parseDigits_value ds :
  forallb isDigit ds = true ->
  forall n,
    parseDigits 10 (Some (Z.of_N n)) ds
    = Some (Z.of_N (fold_left (fun acc c => (10 * acc + (c - 48))%N) ds n)).
Proof.
  induction ds as [|d ds IH]; intros Hall n; [reflexivity|].
  cbn [forallb] in Hall. apply andb_true_iff in Hall as [Hd Hall].
  cbn [parseDigits fold_left]. rewrite (radixDigit_decimal d Hd).
  apply isDigit_range in Hd. rewrite <- (IH Hall). do 2 f_equal. lia.
Qed.

(** *** Numbers *)

Lemma roundPositive_exact z : (0 <= z <= 2 ^ 53)%Z -> roundPositive z = z.
Proof.
  intros H. destruct (Z.eq_dec z (2 ^ 53)) as [->|Hne]; [reflexivity|].
  unfold roundPositive.
  replace (Z.log2 z <=? 52)%Z with true; [reflexivity|].
  symmetry; apply Z.leb_le.
  destruct (Z.eq_dec z 0) as [->|H0]; [simpl; lia|].
  assert (Z.log2 z < 53)%Z by (apply Z.log2_lt_pow2; lia). lia.
Qed.

Lemma roundPositive_nonneg z : (0 <= z)%Z -> (0 <= roundPositive z)%Z.
Proof.
  intros H. unfold roundPositive.
  destruct (Z.log2 z <=? 52)%Z; [exact H|].
  apply Z.min_glb; [|unfold Infinity; apply Z.pow_nonneg; lia].
  apply Z.shiftl_nonneg.
  assert (0 <= Z.shiftr z (Z.log2 z - 52))%Z by (apply Z.shiftr_nonneg; exact H).
  destruct (_ || _); lia.
Qed.

(** Integers up to [2^53] in magnitude are doubles. *)
Lemma toDouble_exact z : (- 2 ^ 53 <= z <= 2 ^ 53)%Z -> toDouble z = z.
Proof.
  intros H. unfold toDouble. destruct (z <? 0)%Z eqn:E.
  - apply Z.ltb_lt in E. rewrite roundPositive_exact; lia.
  - apply Z.ltb_ge in E. apply roundPositive_exact; lia.
Qed.

Lemma toDouble_nonneg z : (0 <= z)%Z -> (0 <= toDouble z)%Z.
Proof.
  intros H. unfold toDouble.
  replace (z <? 0)%Z with false by (symmetry; apply Z.ltb_ge; exact H).
  apply roundPositive_nonneg, H.
Qed.

(** Adding one to a non-negative Number below [2^53] is exact. *)
Lemma number_add_one_exact n :
  (0 <= n < 2 ^ 53)%Z -> number_add n 1 = (n + 1)%Z.
Proof. intros H. apply toDouble_exact. lia. Qed.

(** A non-empty run of decimal digits parses to the double nearest to its
    value. *)
Lemma parseInt_digits ds :
  ds <> [] -> forallb isDigit ds = true ->
  parseInt ds = Some (toDouble (Z.of_N (decimalValue ds))).
Proof.
  intros Hne Hall. destruct ds as [|c t]; [congruence|].
  pose proof Hall as Hall'.
  cbn [forallb] in Hall. apply andb_true_iff in Hall as [Hc Ht].
  unfold parseInt. cbn [trimStart]. rewrite (isDigit_not_white c Hc).
  pose proof (isDigit_range c Hc) as Hr.
  assert (Hsign : parseSign (c :: t) = (1%Z, c :: t)).
  { unfold parseSign.
    replace (c =? 45)%N with false by (symmetry; apply N.eqb_neq; lia).
    replace (c =? 43)%N with false by (symmetry; apply N.eqb_neq; lia).
    reflexivity. }
  assert (Hradix : parseRadix (c :: t) = (10%Z, c :: t)).
  { unfold parseRadix. destruct t as [|x t']; [reflexivity|].
    cbn [forallb] in Ht. apply andb_true_iff in Ht as [Hx _].
    apply isDigit_range in Hx.
    replace (x =? 120)%N with false by (symmetry; apply N.eqb_neq; lia).
    replace (x =? 88)%N with false by (symmetry; apply N.eqb_neq; lia).
    rewrite andb_false_r. reflexivity. }
  rewrite Hsign. cbn [fst snd]. rewrite Hradix. cbn [fst snd].
  cbn [parseDigits]. rewrite (radixDigit_decimal c Hc).
  replace (10 * 0 + (Z.of_N c - 48))%Z with (Z.of_N (c - 48)) by lia.
  rewrite (parseDigits_value t Ht). unfold decimalValue. cbn [fold_left].
  cbn [option_map]. rewrite Z.mul_1_l. reflexivity.
Qed.

(** ** List and filter *)

(** The filters compute on their arguments only: the state is the same
    after them, whether they return or throw. *)
Lemma applyFilters_state q start st : snd (applyFilters q start st) = st.
Proof.
  unfold applyFilters, parseIntOrThrow. run.
  repeat match goal with
         | |- context [match query_get q ?n with _ => _ end] =>
             destruct (query_get q n)
         | |- context [match parseInt ?x with _ => _ end] =>
             destruct (parseInt x)
         end; reflexivity.
Qed.

(** The first integer parameter that fails to parse is the one whose error
    is thrown. *)
Lemma applyFilters_first_failing q name start st :
  first_failing q = Some name ->
  applyFilters q start st = (inl (Error (js ("Invalid " ++ name))), st).
Proof.
  unfold first_failing, non_numeric, applyFilters, parseIntOrThrow. run.
  intros H.
  repeat match goal with
         | _ : context [match query_get q ?n with _ => _ end] |- _ =>
             destruct (query_get q n)
         | _ : context [match parseInt ?x with _ => _ end] |- _ =>
             destruct (parseInt x)
         | |- context [match query_get q ?n with _ => _ end] =>
             destruct (query_get q n)
         end;
    try discriminate; injection H as <-; reflexivity.
Qed.

Lemma getAllStringsHandler_first_failing q name bank file :
  first_failing q = Some name ->
  getAllStringsHandler q (fresh bank file)
  = (inr tt, responded bank file 400 InvalidQuery).
Proof.
  intros H. unfold getAllStringsHandler, bind, try_catch, gets.
  rewrite (applyFilters_first_failing q name _ _ H). reflexivity.
Qed.

(** *** Which texts [parseInt] turns into a number *)













(** ** Frame: what the read-only handlers leave alone *)

Lemma same_store_refl st : same_store st st.
Proof. split; reflexivity. Qed.

Lemma send_same_store code b st : same_store st (snd (send code b st)).
Proof. unfold send. destruct (res st); split; reflexivity. Qed.

Lemma getStringHandler_same_store stringValue st :
  same_store st (snd (getStringHandler stringValue st)).
Proof.
  unfold getStringHandler, decodeURIComponentM, bind, gets.
  destruct (decodeURIComponent stringValue); simpl; [|apply same_store_refl].
  destruct (find_record _ (stringsBank st)); apply send_same_store.
Qed.

Lemma getAllStringsHandler_same_store q st :
  same_store st (snd (getAllStringsHandler q st)).
Proof.
  unfold getAllStringsHandler, bind, try_catch, gets, ret.
  pose proof (applyFilters_state q (stringsBank st, []) st) as Hs.
  destruct (applyFilters q (stringsBank st, []) st) as [[e|[results fa]] st1];
    simpl in Hs; subst st1.
  - pose proof (send_same_store 400 InvalidQuery st) as H.
    destruct (send 400 InvalidQuery st) as [[e'|[]] st2]; exact H.
  - apply send_same_store.
Qed.

Lemma naturalLanguageHandler_same_store q st :
  same_store st (snd (naturalLanguageHandler q st)).
Proof.
  unfold naturalLanguageHandler.
  destruct (query_get q "query") as [[[|c originalQuery]|items]|];
    unfold bind, gets, throw;
    first [apply send_same_store | apply same_store_refl].
Qed.

Lemma server_same_store_unless_POST_or_DELETE
  (hashString : jsstring -> jsstring)
  (JSON_parse : jsstring -> option JSValue)
  (URLSearchParams_entries : jsstring -> list (jsstring * jsstring))
  env req st :
  str_eqb (method req) (js "POST") = false ->
  str_eqb (method req) (js "DELETE") = false ->
  same_store st
    (snd (server hashString JSON_parse URLSearchParams_entries env req st)).
Proof.
  intros Hpost Hdel. rewrite server_not_POST by exact Hpost.
  unfold router. cbn [method pathname query set_body].
  rewrite Hpost, Hdel, !andb_false_r.
  repeat match goal with
         | |- context [if ?c then _ else _] => destruct c
         end;
    auto using getAllStringsHandler_same_store,
               naturalLanguageHandler_same_store,
               getStringHandler_same_store, send_same_store.
Qed.

(** C10.  The get-one, list and natural-language handlers leave the
    collection and the storage file exactly as they found them, from every
    state and for every argument; and the server changes neither for a
    request whose method is neither POST nor DELETE. *)
Theorem read_only_handlers_change_nothing :
  (forall stringValue st,
      same_store st (snd (getStringHandler stringValue st)))
  /\ (forall q st, same_store st (snd (getAllStringsHandler q st)))
  /\ (forall q st, same_store st (snd (naturalLanguageHandler q st)))
  /\ (forall hashString JSON_parse URLSearchParams_entries env req st,
        str_eqb (method req) (js "POST") || str_eqb (method req) (js "DELETE")
        = false ->
        same_store st
          (snd (server hashString JSON_parse URLSearchParams_entries
                       env req st))).
Proof.
  split; [exact getStringHandler_same_store|].
  split; [exact getAllStringsHandler_same_store|].
  split; [exact naturalLanguageHandler_same_store|].
  intros hashString JSON_parse URLSearchParams_entries env req st H.
  apply orb_false_iff in H as [Hpost Hdel].
  apply server_same_store_unless_POST_or_DELETE; assumption.
Qed.

(** ** Natural-language filter *)

Lemma filter_twice {A} (p q : A -> bool) (l : list A) :
  filter p (filter q l) = filter (fun x => q x && p x) l.
Proof.
  induction l as [|x l IH]; simpl; [reflexivity|].
  destruct (q x); simpl; [destruct (p x)|]; rewrite ?IH; reflexivity.
Qed.

Lemma filter_all {A} (l : list A) : filter (fun _ => true) l = l.
Proof. induction l as [|x l IH]; simpl; [|rewrite IH]; reflexivity. Qed.

(** Each rule is a filter by the condition it contributes to [nl_keeps]. *)
Lemma rule_palindromic_data q s :
  fst (rule_palindromic q s)
  = filter (fun r => if includes q (js "palindromic")
                     then is_palindrome (properties r) else true) (fst s).
Proof.
  unfold rule_palindromic. destruct (includes q (js "palindromic")); cbn [fst].
  - apply filter_ext. intros r. destruct (is_palindrome (properties r));
      reflexivity.
  - symmetry; apply filter_all.
Qed.

Lemma rule_single_word_data q s :
  fst (rule_single_word q s)
  = filter (fun r => if includes q (js "single word")
                     then (word_count (properties r) =? 1)%Z else true) (fst s).
Proof.
  unfold rule_single_word. destruct (includes q (js "single word")); cbn [fst].
  - reflexivity.
  - symmetry; apply filter_all.
Qed.

Lemma rule_longer_than_data q s :
  fst (rule_longer_than q s)
  = filter (fun r => match match_longer_than q with
                     | Some N =>
                         geq_number (length_ (properties r))
                           (option_map (fun n => number_add n 1) (parseInt N))
                     | None => true
                     end) (fst s).
Proof.
  unfold rule_longer_than. destruct (match_longer_than q); cbn [fst].
  - reflexivity.
  - symmetry; apply filter_all.
Qed.

Lemma rule_containing_data q s :
  fst (rule_containing q s)
  = filter (fun r => match match_containing_the_letter q with
                     | Some X => includes (value r) X
                     | None => true
                     end) (fst s).
Proof.
  unfold rule_containing. destruct (match_containing_the_letter q); cbn [fst].
  - reflexivity.
  - symmetry; apply filter_all.
Qed.

Lemma rule_first_vowel_data q s :
  fst (rule_first_vowel q s)
  = filter (fun r => if match_first_vowel q
                     then includes (value r) (js "a") else true) (fst s).
Proof.
  unfold rule_first_vowel. destruct (match_first_vowel q); cbn [fst].
  - reflexivity.
  - symmetry; apply filter_all.
Qed.

Lemma nl_rules_data originalQuery bank pf :
  fst (nl_rules originalQuery (bank, pf)) = filter (nl_keeps originalQuery) bank.
Proof.
  unfold nl_rules.
  rewrite rule_first_vowel_data, rule_containing_data, rule_longer_than_data,
    rule_single_word_data, rule_palindromic_data.
  cbn [fst]. rewrite !filter_twice. apply filter_ext. intros r.
  unfold nl_keeps. rewrite !andb_assoc. reflexivity.
Qed.

Lemma naturalLanguageHandler_run q originalQuery bank file :
  query_get q "query" = Some (QStr originalQuery) ->
  originalQuery <> [] ->
  let out := nl_rules originalQuery (bank, []) in
  naturalLanguageHandler q (fresh bank file)
  = (inr tt,
     responded bank file 200
       (BodyNatural (fst out) (Z.of_nat (List.length (fst out)))
                    originalQuery (snd out))).
Proof.
  intros Hq Hne out. unfold naturalLanguageHandler. rewrite Hq.
  destruct originalQuery as [|c rest]; [congruence|]. reflexivity.
Qed.

(** The rule of the first vowel writes [contains_character] last. *)
Lemma first_vowel_overwrites originalQuery s :
  match_first_vowel originalQuery = true ->
  Map_get (snd (nl_rules originalQuery s)) (js "contains_character")
  = Some (FQuery (QStr (js "a"))).
Proof.
  intros Hv. unfold nl_rules, rule_first_vowel. rewrite Hv. cbn [snd].
  rewrite obj_set_get, str_eqb_refl. reflexivity.
Qed.

(** What [parsed_filters] holds under each of its four keys. *)
Lemma nl_rules_parsed_filters originalQuery bank :
  let pf := snd (nl_rules originalQuery (bank, [])) in
  Map_get pf (js "is_palindrome")
  = (if includes originalQuery (js "palindromic")
     then Some (FBool true) else None)
  /\ Map_get pf (js "word_count")
     = (if includes originalQuery (js "single word")
        then Some (FNum (Some 1%Z)) else None)
  /\ Map_get pf (js "min_length")
     = match match_longer_than originalQuery with
       | Some N => Some (FNum (option_map (fun n => number_add n 1) (parseInt N)))
       | None => None
       end
  /\ Map_get pf (js "contains_character")
     = (if match_first_vowel originalQuery
        then Some (FQuery (QStr (js "a")))
        else match match_containing_the_letter originalQuery with
             | Some X => Some (FQuery (QStr X))
             | None => None
             end).
Proof.
  unfold nl_rules, rule_first_vowel, rule_containing, rule_longer_than,
    rule_single_word, rule_palindromic.
  destruct (includes originalQuery (js "palindromic"));
    destruct (includes originalQuery (js "single word"));
    destruct (match_longer_than originalQuery);
    destruct (match_containing_the_letter originalQuery);
    destruct (match_first_vowel originalQuery);
    cbn [snd fst]; repeat split; reflexivity.
Qed.

(** *** The captured digits *)

Lemma takeWhile_all f s : forallb f (takeWhile f s) = true.
Proof.
  induction s as [|c s IH]; simpl; [reflexivity|].
  destruct (f c) eqn:E; simpl; [rewrite E, IH|]; reflexivity.
Qed.

(** The group captured by [/longer than (\d+)/] is a non-empty run of
    digits. *)
Lemma match_longer_than_digits s N :
  match_longer_than s = Some N -> N <> [] /\ forallb isDigit N = true.
Proof.
  induction s as [|c s IH].
  - discriminate.
  - cbn [match_longer_than].
    destruct (strip_prefix (js "longer than ") (c :: s)) as [rest|]; [|exact IH].
    pose proof (takeWhile_all isDigit rest) as Hall.
    destruct (takeWhile isDigit rest) as [|d ds]; [exact IH|].
    intros H; injection H as <-. split; [discriminate|exact Hall].
Qed.

(** C6.  For a non-empty query text the natural-language handler answers
    200 with the records left by its five rules applied one after the other
    (palindromic, single word, longer than N, containing the letter X,
    first vowel): exactly the records which satisfy every rule the query
    triggers.  [parsed_filters] records each triggered rule; "longer than
    N" records and requires a length of at least the Number
    [parseInt(N) + 1], which is N + 1 while N is below 2^53 and the nearest
    double beyond (9007199254740992 for N = 9007199254740992); and a query
    that triggers both "containing the letter X" and "first vowel" filters
    on X and on "a" while [contains_character] ends as "a".  For "all
    single word palindromic strings" over the records of "level" and "hello
    world", the data are the record of "level" alone and the filters are
    [{is_palindrome: true, word_count: 1}]. *)
Theorem natural_language_rules_are_cumulative :
  forall q originalQuery bank file,
    query_get q "query" = Some (QStr originalQuery) ->
    originalQuery <> [] ->
    let out := nl_rules originalQuery (bank, []) in
    let data := fst out in
    let parsed_filters := snd out in
    naturalLanguageHandler q (fresh bank file)
    = (inr tt,
       responded bank file 200
         (BodyNatural data (Z.of_nat (List.length data)) originalQuery
                      parsed_filters))
    /\ data = filter (nl_keeps originalQuery) bank
    /\ Map_get parsed_filters (js "is_palindrome")
       = (if includes originalQuery (js "palindromic")
          then Some (FBool true) else None)
    /\ Map_get parsed_filters (js "word_count")
       = (if includes originalQuery (js "single word")
          then Some (FNum (Some 1%Z)) else None)
    /\ (forall N,
          match_longer_than originalQuery = Some N ->
          let n := toDouble (Z.of_N (decimalValue N)) in
          parseInt N = Some n /\ (0 <= n)%Z
          /\ Map_get parsed_filters (js "min_length")
             = Some (FNum (Some (number_add n 1)))
          /\ ((Z.of_N (decimalValue N) < 2 ^ 53)%Z ->
              number_add n 1 = (Z.of_N (decimalValue N) + 1)%Z)
          /\ forall r,
               In r data -> (number_add n 1 <= length_ (properties r))%Z)
    /\ snd (nl_rules (js "longer than 9007199254740992") ([], []))
       = [(js "min_length", FNum (Some 9007199254740992%Z))]
    /\ (forall X,
          match_containing_the_letter originalQuery = Some X ->
          (forall r, In r data -> includes (value r) X = true)
          /\ Map_get parsed_filters (js "contains_character")
             = Some (FQuery (QStr (if match_first_vowel originalQuery
                                   then js "a" else X))))
    /\ (match_first_vowel originalQuery = true ->
          (forall r, In r data -> includes (value r) (js "a") = true)
          /\ Map_get parsed_filters (js "contains_character")
             = Some (FQuery (QStr (js "a"))))
    /\ (forall (hashString : jsstring -> jsstring) now1 now2 file0,
          let level :=
            responseObject (hashString (js "level")) (js "level") now1 in
          let hello :=
            responseObject (hashString (js "hello world"))
                           (js "hello world") now2 in
          let text := js "all single word palindromic strings" in
          naturalLanguageHandler [(js "query", QStr text)]
                                 (fresh [level; hello] file0)
          = (inr tt,
             responded [level; hello] file0 200
               (BodyNatural [level] 1 text
                  [(js "is_palindrome", FBool true);
                   (js "word_count", FNum (Some 1%Z))]))).
Proof.
  intros q originalQuery bank file Hq Hne out data parsed_filters.
  destruct (nl_rules_parsed_filters originalQuery bank)
    as (Hpal & Hword & Hmin & Hchar).
  assert (Hdata : data = filter (nl_keeps originalQuery) bank)
    by apply nl_rules_data.
  assert (Hkeeps : forall r, In r data -> nl_keeps originalQuery r = true).
  { intros r Hr. rewrite Hdata in Hr. apply filter_In in Hr. tauto. }
  split; [apply naturalLanguageHandler_run; assumption|].
  split; [exact Hdata|]. split; [exact Hpal|]. split; [exact Hword|].
  split; [|split; [|split; [|split]]].
  - intros N HN n.
    destruct (match_longer_than_digits _ _ HN) as [Hnon Hdig].
    pose proof (parseInt_digits N Hnon Hdig) as Hn. fold n in Hn.
    assert (Hpos : (0 <= Z.of_N (decimalValue N))%Z) by apply N2Z.is_nonneg.
    split; [exact Hn|]. split; [apply toDouble_nonneg, Hpos|].
    split; [|split].
    + subst parsed_filters out. rewrite Hmin, HN, Hn. reflexivity.
    + intros Hsmall. unfold n. rewrite toDouble_exact by lia.
      apply number_add_one_exact. lia.
    + intros r Hr. apply Hkeeps in Hr. unfold nl_keeps in Hr.
      rewrite HN, Hn in Hr. rewrite !andb_true_iff in Hr.
      destruct Hr as [[[_ Hlen] _] _]. cbn [option_map geq_number] in Hlen.
      apply Z.leb_le in Hlen. exact Hlen.
  - vm_compute. reflexivity.
  - intros X HX. split.
    + intros r Hr. apply Hkeeps in Hr. unfold nl_keeps in Hr.
      rewrite HX in Hr. rewrite !andb_true_iff in Hr. tauto.
    + subst parsed_filters out. rewrite Hchar, HX.
      destruct (match_first_vowel originalQuery); reflexivity.
  - intros Hv. split.
    + intros r Hr. apply Hkeeps in Hr. unfold nl_keeps in Hr.
      rewrite Hv in Hr. rewrite !andb_true_iff in Hr. tauto.
    + subst parsed_filters out. rewrite Hchar, Hv. reflexivity.
  - intros hashString now1 now2 file0 level hello text. reflexivity.
Qed.

Lemma natural_language_rules_are_cumulative_witness :
  let text := js "strings containing the letter z after the first vowel" in
  let q := [(js "query", QStr text)] in
  let bank := [example_record "lazy"; example_record "fuzz";
               example_record "data"] in
  query_get q "query" = Some (QStr text)
  /\ text <> []
  /\ naturalLanguageHandler q (fresh bank None)
     = (inr tt,
        responded bank None 200
          (BodyNatural [example_record "lazy"] 1 text
             [(js "contains_character", FQuery (QStr (js "a")))])).
Proof.
  intros text q bank.
  assert (Hne : text <> []) by discriminate.
  split; [reflexivity|]. split; [exact Hne|].
  exact (proj1
    (natural_language_rules_are_cumulative q text bank None eq_refl Hne)).
Defined.

(** ** Start-up *)

Lemma startup_keeps_valid_json_of_any_shape :
  is_record_array (ReadResolved (Some (JObj []))) = false
  /\ fst (loadStringsBank (ReadResolved (Some (JObj [])))) <> JArr [].
Proof. split; [reflexivity|discriminate]. Qed.

(** C9.  After start-up the collection is the empty array when the read of
    the storage file is rejected (the file is absent, or any other failure)
    and when its text is not JSON.  When the text is JSON the collection is
    the parsed value as it stands, array of records or not.  Start-up always
    yields a collection and a log line: [LogNoFile] exactly for the code
    [ENOENT], [LogFailed] for the other failures. *)
Theorem startup_collection :
  forall r,
    (fst (loadStringsBank r)
     = match r with
       | ReadResolved (Some data) => data
       | _ => JArr []
       end)
    /\ (fst (loadStringsBank r) <> JArr [] ->
        exists data, r = ReadResolved (Some data) /\ data <> JArr [])
    /\ (is_record_array r = true ->
        exists items, fst (loadStringsBank r) = JArr items
                      /\ forallb is_record items = true)
    /\ snd (loadStringsBank r)
       = match r with
         | ReadResolved (Some _) => LogLoaded
         | ReadResolved None => LogFailed
         | ReadRejected code =>
             if str_eqb code (js "ENOENT") then LogNoFile else LogFailed
         end.
Proof.
  intros r. destruct r as [code|[data|]]; simpl.
  - unfold loadStringsBank, opt_str_eqb, error_code.
    destruct (str_eqb code (js "ENOENT")); simpl;
      repeat split; try congruence; discriminate.
  - repeat split; try reflexivity.
    + intros H. exists data. split; [reflexivity|exact H].
    + destruct data as [| | | | items |]; try discriminate.
      intros H. exists items. split; [reflexivity|exact H].
  - repeat split; try congruence; discriminate.
Qed.

(** ** From the request to the handlers *)

Section EndToEnd.

Variable hashString : jsstring -> jsstring.
Variable JSON_parse : jsstring -> option JSValue.
Variable URLSearchParams_entries : jsstring -> list (jsstring * jsstring).

Let serve := server hashString JSON_parse URLSearchParams_entries.

(** A JSON payload that parses reaches the create handler as the body. *)
Lemma server_POST_json env req parsed :
  method req = js "POST" ->
  pathname req = js "/strings" ->
  content_type req = Some (js "application/json") ->
  payload req <> [] ->
  JSON_parse (payload req) = Some parsed ->
  serve env req = finalHandler hashString env (set_body req parsed).
Proof.
  intros Hm Hp Hct Hpl Hparse.
  unfold serve, server, middlewareStack, next, convertStream.
  cbn [method payload content_type set_body]. rewrite Hm, Hct, Hparse.
  destruct (payload req) as [|c rest]; [congruence|].
  unfold router. cbn [method pathname set_body]. rewrite Hm, Hp. reflexivity.
Qed.

(** The payload [null] is answered 500. *)
Lemma server_POST_null env req bank file :
  method req = js "POST" ->
  pathname req = js "/strings" ->
  content_type req = Some (js "application/json") ->
  payload req <> [] ->
  JSON_parse (payload req) = Some JNull ->
  serve env req (fresh bank file)
  = (inr tt, responded bank file 500 InternalServerError).
Proof.
  intros Hm Hp Hct Hpl Hparse.
  rewrite (server_POST_json env req JNull Hm Hp Hct Hpl Hparse).
  apply finalHandler_null. reflexivity.
Qed.

(** A payload which is not JSON stops at the middleware with 400. *)
Lemma server_POST_malformed env req bank file :
  method req = js "POST" ->
  content_type req = Some (js "application/json") ->
  payload req <> [] ->
  JSON_parse (payload req) = None ->
  serve env req (fresh bank file)
  = (inr tt, responded bank file 400 (BodyError (js "Invalid JSON format"))).
Proof.
  intros Hm Hct Hpl Hparse.
  unfold serve, server, middlewareStack, next, convertStream.
  cbn [method payload content_type set_body]. rewrite Hm, Hct, Hparse.
  destruct (payload req) as [|c rest]; [congruence|]. reflexivity.
Qed.

(** The round trip through the router: a GET of [/strings/<segment>],
    where the segment decodes to the value just created and the path is not
    the literal natural-language route, returns the created record. *)
Lemma server_get_after_create env env' req get bank file st' r stringValue :
  finalHandler hashString env req (fresh bank file) = (inr tt, st') ->
  res st' = Some {| statusCode := 201; body := BodySuccess r |} ->
  method get = js "GET" ->
  split_on 47 (pathname get) = [[]; js "strings"; stringValue] ->
  pathname get <> js "/strings/filter-by-natural-language" ->
  decodeURIComponent stringValue = Some (value r) ->
  serve env' get (fresh (stringsBank st') (stringsFile st'))
  = (inr tt,
     responded (stringsBank st') (stringsFile st') 200 (BodySuccess r)).
Proof.
  intros Hrun Hres Hm Hs Hp Hdec.
  unfold serve. rewrite server_not_POST by (rewrite Hm; reflexivity).
  rewrite (router_get_one hashString env' _ stringValue); try assumption.
  destruct (finalHandler_201 _ _ _ _ _ _ _ Hrun Hres)
    as (_ & Hnew & Hbank & _).
  rewrite getStringHandler_run, Hdec, Hbank.
  rewrite find_record_appended; auto using str_eqb_refl.
Qed.

End EndToEnd.

(** ** Worked examples from the specification *)

Example wordCount_examples :
  wordCount (js "") = 0%Z /\ wordCount (js "   ") = 0%Z
  /\ wordCount (js "a  b   c") = 3%Z /\ wordCount (js " hello world ") = 2%Z.
Proof. repeat split; reflexivity. Qed.

Example parseInt_examples :
  parseInt (js "abc") = None /\ parseInt (js "") = None
  /\ parseInt (js "0x") = None /\ parseInt (js " 42") = Some 42%Z
  /\ parseInt (js "-7") = Some (-7)%Z /\ parseInt (js "12abc") = Some 12%Z
  /\ parseInt (js "0x1f") = Some 31%Z /\ parseInt (js "4.9") = Some 4%Z
  /\ parseInt (js "1e9") = Some 1%Z /\ parseInt (js "3 or so") = Some 3%Z
  /\ parseInt (js "-9007199254740993") = Some (-9007199254740992)%Z.
Proof. repeat split; vm_compute; reflexivity. Qed.

Example toDouble_examples :
  toDouble 9007199254740993 = 9007199254740992%Z
  /\ toDouble 9007199254740995 = 9007199254740996%Z
  /\ toDouble (-9007199254740993) = (-9007199254740992)%Z
  /\ toDouble (2 ^ 1024 - 2 ^ 970 - 1) = (2 ^ 1024 - 2 ^ 971)%Z
  /\ toDouble (2 ^ 1024 - 2 ^ 970) = Infinity
  /\ toDouble (10 ^ 400) = Infinity
  /\ number_add 9007199254740992 1 = 9007199254740992%Z
  /\ number_add Infinity 1 = Infinity.
Proof. repeat split; vm_compute; reflexivity. Qed.

Example decodeURIComponent_examples :
  decodeURIComponent (js "hello%20world") = Some (js "hello world")
  /\ decodeURIComponent (js "%") = None
  /\ decodeURIComponent (js "%zz") = None
  /\ decodeURIComponent (js "%E2%82%AC") = Some [8364%N]
  /\ decodeURIComponent (js "%F0%9F%98%80") = Some [55357%N; 56832%N]
  /\ decodeURIComponent (js "%C0%80") = None
  /\ decodeURIComponent (js "%ED%A0%80") = None.
Proof. repeat split; reflexivity. Qed.

Example regex_examples :
  match_longer_than (js "longer than x, longer than 10 characters")
  = Some (js "10")
  /\ match_containing_the_letter (js "Containing THE letter Z") = Some (js "Z")
  /\ match_containing_the_letter (js "containing the letter ?") = None
  /\ match_first_vowel (js "the FIRST vowel") = true.
Proof. repeat split; reflexivity. Qed.

Example characterMap_key_order :
  characterMap (js "b1a0 b21")
  = [(js "0", 1%Z); (js "1", 2%Z); (js "2", 1%Z); (js "b", 2%Z); (js "a", 1%Z)].
Proof. reflexivity. Qed.

(** Lengths 3, 5 and 7 with [min_length=5&max_length=7]: the records of
    length 5 and 7, count 2. *)
Example list_by_length :
  let bank := [example_record "abc"; example_record "abcde";
               example_record "abcdefg"] in
  getAllStringsHandler
    [(js "min_length", QStr (js "5")); (js "max_length", QStr (js "7"))]
    (fresh bank None)
  = (inr tt,
     responded bank None 200
       (BodyList [example_record "abcde"; example_record "abcdefg"] 2
          [(js "min_length", FNum (Some 5%Z));
           (js "max_length", FNum (Some 7%Z))])).
Proof. reflexivity. Qed.

(** Deleting an existing value answers 204 with an empty body, and a
    get-one for it made next answers 404. *)
Example delete_then_get :
  let r := example_record "hello world" in
  deleteStringHandler example_env (js "hello%20world") (fresh [r] (Some [r]))
  = (inr tt, responded [] (Some []) 204 BodyEmpty)
  /\ getStringHandler (js "hello%20world") (fresh [] (Some []))
     = (inr tt,
        responded [] (Some []) 404
          (BodyError (js "String does not exist in the system"))).
Proof. split; reflexivity. Qed.

(** * Further properties *)

(** ** Delete *)

Lemma findIndex_None (p : StringRecord -> bool) bank :
  findIndex p bank = None <-> existsb p bank = false.
Proof.
  induction bank as [|el bank IH]; simpl; [tauto|].
  destruct (p el); simpl; [split; discriminate|].
  rewrite <- IH. destruct (findIndex p bank); simpl; split; congruence.
Qed.

Lemma findIndex_Some (p : StringRecord -> bool) bank index :
  findIndex p bank = Some index ->
  firstn index bank ++ skipn (S index) bank = remove_first p bank
  /\ existsb p bank = true.
Proof.
  revert index. induction bank as [|el bank IH]; simpl; intros index H.
  - discriminate.
  - destruct (p el).
    + injection H as <-. split; reflexivity.
    + destruct (findIndex p bank) as [i|]; [|discriminate].
      injection H as <-. destruct (IH i eq_refl) as [IH1 IH2].
      split; [|exact IH2]. cbn [firstn skipn app] in *.
      f_equal. exact IH1.
Qed.

Lemma deleteStringHandler_run env stringValue bank file :
  deleteStringHandler env stringValue (fresh bank file)
  = (inr tt,
     match decodeURIComponent stringValue with
     | None => responded bank file 500 InternalServerError
     | Some decodedValue =>
         let p := fun el => str_eqb (value el) decodedValue in
         if existsb p bank then
           if writeFile_ok env then
             responded (remove_first p bank) (Some (remove_first p bank))
                       204 BodyEmpty
           else
            responded (remove_first p bank)
              (after_failed_write env file (remove_first p bank))
              500 InternalServerError
         else
           responded bank file 404
             (BodyError (js "String does not exist in the system"))
     end).
Proof.
  unfold deleteStringHandler, try_catch, bind, decodeURIComponentM.
  destruct (decodeURIComponent stringValue) as [d|]; [|reflexivity].
  unfold ret, gets. cbn [stringsBank fresh].
  destruct (findIndex (fun el => str_eqb (value el) d) bank) as [i|] eqn:E.
  - destruct (findIndex_Some _ _ _ E) as [Hrem Hex]. cbv zeta. rewrite Hex.
    unfold splice1, modify, writeFile, send, responded, fresh.
    cbn [stringsBank stringsFile res]. rewrite Hrem.
    destruct (writeFile_ok env); reflexivity.
  - apply findIndex_None in E. cbv zeta. rewrite E. reflexivity.
Qed.

Lemma remove_first_length (p : StringRecord -> bool) bank :
  existsb p bank = true ->
  S (List.length (remove_first p bank)) = List.length bank.
Proof.
  induction bank as [|el bank IH]; simpl; [discriminate|].
  destruct (p el); simpl; [reflexivity|]. intros H. rewrite IH; auto.
Qed.

Lemma remove_first_In (p : StringRecord -> bool) bank r :
  In r (remove_first p bank) -> In r bank.
Proof.
  induction bank as [|el bank IH]; simpl; [tauto|].
  destruct (p el); simpl; intuition.
Qed.

Lemma remove_first_keeps (p : StringRecord -> bool) bank r :
  In r bank -> p r = false -> In r (remove_first p bank).
Proof.
  induction bank as [|el bank IH]; simpl; [tauto|].
  intros [->|Hin] Hp.
  - rewrite Hp. left; reflexivity.
  - destruct (p el); [exact Hin|]. right; auto.
Qed.

Lemma remove_first_unique (p : StringRecord -> bool) bank :
  unique_values bank -> unique_values (remove_first p bank).
Proof.
  unfold unique_values. induction bank as [|el bank IH]; simpl; intros H.
  - constructor.
  - inversion H as [|? ? Hnotin Hnd]; subst.
    destruct (p el); [exact Hnd|]. simpl. constructor; [|auto].
    intros Hin. apply Hnotin. apply in_map_iff in Hin as (x & Hx & Hin).
    apply in_map_iff. exists x. split; [exact Hx|].
    eapply remove_first_In; eauto.
Qed.

(** With distinct values, removing the first record of a value removes
    the value. *)
Lemma remove_first_value_gone d bank :
  unique_values bank ->
  existsb (fun el => str_eqb (value el) d)
          (remove_first (fun el => str_eqb (value el) d) bank) = false.
Proof.
  unfold unique_values. induction bank as [|el bank IH]; simpl; intros H.
  - reflexivity.
  - inversion H as [|? ? Hnotin Hnd]; subst.
    destruct (str_eqb (value el) d) eqn:E.
    + apply str_eqb_eq in E. subst d.
      destruct (existsb _ bank) eqn:Ex; [|reflexivity].
      apply existsb_exists in Ex as (x & Hx & Hv). apply str_eqb_eq in Hv.
      exfalso. apply Hnotin. rewrite <- Hv. apply in_map. exact Hx.
    + simpl. rewrite E. simpl. auto.
Qed.

Lemma remove_first_appended (p : StringRecord -> bool) bank r :
  existsb p bank = false -> p r = true ->
  remove_first p (bank ++ [r]) = bank.
Proof.
  induction bank as [|el bank IH]; simpl; intros Hex Hr.
  - rewrite Hr. reflexivity.
  - apply orb_false_iff in Hex as [Hel Hex]. rewrite Hel. f_equal. auto.
Qed.

(** X1.  Deleting a value which is in the collection, when the file can be
    written, answers 204 with an empty body; the collection loses exactly
    the first record of that value (one record less, every other record
    kept, nothing added), the file is rewritten with the new collection,
    and with distinct values no record of that value is left. *)
Theorem delete_existing_removes_one_record :
  forall env stringValue decodedValue bank file,
    decodeURIComponent stringValue = Some decodedValue ->
    existsb (fun el => str_eqb (value el) decodedValue) bank = true ->
    writeFile_ok env = true ->
    let bank' := remove_first (fun el => str_eqb (value el) decodedValue) bank in
    deleteStringHandler env stringValue (fresh bank file)
    = (inr tt, responded bank' (Some bank') 204 BodyEmpty)
    /\ S (List.length bank') = List.length bank
    /\ (forall r, In r bank -> value r <> decodedValue -> In r bank')
    /\ (forall r, In r bank' -> In r bank)
    /\ (unique_values bank ->
        existsb (fun el => str_eqb (value el) decodedValue) bank' = false).
Proof.
  intros env stringValue d bank file Hdec Hex Hw bank'.
  split.
  { rewrite deleteStringHandler_run, Hdec. cbv zeta. rewrite Hex, Hw.
    reflexivity. }
  split; [apply remove_first_length; exact Hex|].
  split.
  { intros r Hin Hne. apply remove_first_keeps; [exact Hin|].
    apply str_eqb_neq. exact Hne. }
  split; [intros r; apply remove_first_In|].
  apply remove_first_value_gone.
Qed.

Lemma delete_existing_removes_one_record_witness :
  let a := example_record "level" in
  let b := example_record "hello world" in
  decodeURIComponent (js "hello%20world") = Some (js "hello world")
  /\ existsb (fun el => str_eqb (value el) (js "hello world")) [a; b] = true
  /\ writeFile_ok example_env = true
  /\ deleteStringHandler example_env (js "hello%20world")
       (fresh [a; b] (Some [a; b]))
     = (inr tt, responded [a] (Some [a]) 204 BodyEmpty).
Proof.
  intros a b. repeat (split; [reflexivity|]).
  exact (proj1
    (delete_existing_removes_one_record example_env (js "hello%20world")
       (js "hello world") [a; b] (Some [a; b]) eq_refl eq_refl eq_refl)).
Defined.

(** X2.  Deleting a value which is not in the collection answers 404
    "String does not exist in the system", whatever the file system would
    do, and leaves the collection and the file as they were. *)
Theorem delete_absent_answers_404 :
  forall env stringValue decodedValue bank file,
    decodeURIComponent stringValue = Some decodedValue ->
    existsb (fun el => str_eqb (value el) decodedValue) bank = false ->
    deleteStringHandler env stringValue (fresh bank file)
    = (inr tt,
       responded bank file 404
         (BodyError (js "String does not exist in the system"))).
Proof.
  intros env stringValue d bank file Hdec Hex.
  rewrite deleteStringHandler_run, Hdec. cbv zeta. rewrite Hex. reflexivity.
Qed.

Lemma delete_absent_answers_404_witness :
  let a := example_record "level" in
  decodeURIComponent (js "hello") = Some (js "hello")
  /\ existsb (fun el => str_eqb (value el) (js "hello")) [a] = false
  /\ deleteStringHandler example_env (js "hello") (fresh [a] None)
     = (inr tt,
        responded [a] None 404
          (BodyError (js "String does not exist in the system"))).
Proof.
  intros a. repeat (split; [reflexivity|]).
  exact (delete_absent_answers_404 example_env (js "hello") (js "hello")
           [a] None eq_refl eq_refl).
Defined.

(** X3.  With distinct values in the collection, once a delete has been
    answered 204 a get-one for the same value is answered 404. *)
Theorem delete_then_get_answers_404 :
  forall env stringValue stringValue' decodedValue bank file st',
    unique_values bank ->
    decodeURIComponent stringValue = Some decodedValue ->
    decodeURIComponent stringValue' = Some decodedValue ->
    deleteStringHandler env stringValue (fresh bank file) = (inr tt, st') ->
    res st' = Some {| statusCode := 204; body := BodyEmpty |} ->
    getStringHandler stringValue' (fresh (stringsBank st') (stringsFile st'))
    = (inr tt,
       responded (stringsBank st') (stringsFile st') 404
         (BodyError (js "String does not exist in the system"))).
Proof.
  intros env seg seg' d bank file st' Huniq Hdec Hdec' Hrun Hres.
  rewrite deleteStringHandler_run, Hdec in Hrun. cbv zeta in Hrun.
  destruct (existsb _ bank) eqn:Hex;
    [|injection Hrun as <-; discriminate Hres].
  destruct (writeFile_ok env);
    [|injection Hrun as <-; discriminate Hres].
  injection Hrun as <-. cbn [responded stringsBank stringsFile].
  rewrite getStringHandler_run, Hdec'.
  pose proof (remove_first_value_gone d bank Huniq) as Hgone.
  unfold find_record.
  destruct (find _ (remove_first _ bank)) as [x|] eqn:Hfind; [|reflexivity].
  apply find_some in Hfind as [Hin Hx].
  assert (Hex' : existsb (fun el => str_eqb (value el) d)
                   (remove_first (fun el => str_eqb (value el) d) bank) = true).
  { apply existsb_exists. exists x. split; assumption. }
  congruence.
Qed.

Lemma delete_then_get_answers_404_witness :
  let a := example_record "level" in
  let b := example_record "hello world" in
  unique_values [a; b]
  /\ getStringHandler (js "level") (fresh [b] (Some [b]))
     = (inr tt,
        responded [b] (Some [b]) 404
          (BodyError (js "String does not exist in the system"))).
Proof.
  intros a b.
  assert (Huniq : unique_values [a; b]).
  { unfold unique_values. simpl. constructor.
    - intros [H|[]]. discriminate H.
    - constructor; [intros []|constructor]. }
  split; [exact Huniq|].
  exact (delete_then_get_answers_404 example_env (js "level") (js "level")
           (js "level") [a; b] (Some [a; b])
           (responded [b] (Some [b]) 204 BodyEmpty)
           Huniq eq_refl eq_refl eq_refl eq_refl).
Defined.

(** X4.  Creating a value and then deleting it, both with a file that can
    be written, gives back the collection as it was before the creation,
    with the file holding that collection. *)
Theorem create_then_delete_restores_collection :
  forall (hashString : jsstring -> jsstring) env env' req bank file st' r
         stringValue,
    finalHandler hashString env req (fresh bank file) = (inr tt, st') ->
    res st' = Some {| statusCode := 201; body := BodySuccess r |} ->
    decodeURIComponent stringValue = Some (value r) ->
    writeFile_ok env' = true ->
    deleteStringHandler env' stringValue
      (fresh (stringsBank st') (stringsFile st'))
    = (inr tt, responded bank (Some bank) 204 BodyEmpty).
Proof.
  intros hashString env env' req bank file st' r seg Hrun Hres Hdec Hw.
  destruct (finalHandler_201 _ _ _ _ _ _ _ Hrun Hres)
    as (_ & Hnew & Hbank & _).
  rewrite deleteStringHandler_run, Hdec, Hbank. cbv zeta.
  rewrite existsb_app. cbn [existsb]. rewrite str_eqb_refl, Hw.
  rewrite orb_true_r. cbn [orb].
  rewrite remove_first_appended; auto using str_eqb_refl.
Qed.

Lemma create_then_delete_restores_collection_witness :
  let a := example_record "hello world" in
  let r := example_record "level" in
  finalHandler example_digest example_env (example_post "level")
    (fresh [a] (Some [a]))
  = (inr tt, responded [a; r] (Some [a; r]) 201 (BodySuccess r))
  /\ deleteStringHandler example_env (js "level") (fresh [a; r] (Some [a; r]))
     = (inr tt, responded [a] (Some [a]) 204 BodyEmpty).
Proof.
  intros a r. split; [reflexivity|].
  exact (create_then_delete_restores_collection example_digest example_env
           example_env (example_post "level") [a] (Some [a])
           (responded [a; r] (Some [a; r]) 201 (BodySuccess r)) r
           (js "level") eq_refl eq_refl eq_refl eq_refl).
Defined.

(** ** List and filter, when every integer parameter parses *)

Ltac merge_filters :=
  rewrite ?filter_twice;
  first
    [ apply filter_ext; intros ?r;
      rewrite ?andb_true_l, ?andb_true_r, ?andb_assoc; reflexivity
    | etransitivity;
      [ symmetry; apply filter_all
      | apply filter_ext; intros ?r; reflexivity ] ].

(** The filters return the records which satisfy every parameter present,
    and [filters_applied] gets one key per parameter present, in the order
    of the handler, with the parsed value. *)
Lemma applyFilters_ok q bank st :
  first_failing q = None ->
  exists filters_applied,
    applyFilters q (bank, []) st
    = (inr (filter (list_keeps q) bank, filters_applied), st)
    /\ map fst filters_applied
       = map js (filter (present q) filter_names)
    /\ Map_get filters_applied (js "is_palindrome")
       = option_map (fun v => FBool (is_true_text v))
                    (query_get q "is_palindrome")
    /\ Map_get filters_applied (js "min_length")
       = option_map (fun v => FNum (parseInt (QueryValue_toString v)))
                    (query_get q "min_length")
    /\ Map_get filters_applied (js "max_length")
       = option_map (fun v => FNum (parseInt (QueryValue_toString v)))
                    (query_get q "max_length")
    /\ Map_get filters_applied (js "word_count")
       = option_map (fun v => FNum (parseInt (QueryValue_toString v)))
                    (query_get q "word_count")
    /\ Map_get filters_applied (js "contains_character")
       = option_map FQuery (query_get q "contains_character").
Proof.
  unfold first_failing, non_numeric, applyFilters, parseIntOrThrow, list_keeps,
    present, filter_names, is_true_text, option_map.
  cbn [filter]. intros H.
  destruct (query_get q "is_palindrome") as [v1|];
    destruct (query_get q "min_length") as [v2|];
    destruct (query_get q "max_length") as [v3|];
    destruct (query_get q "word_count") as [v4|];
    destruct (query_get q "contains_character") as [v5|];
    cbv beta iota in *;
    repeat match goal with
           | _ : context [match parseInt ?x with _ => _ end] |- _ =>
               destruct (parseInt x)
           end;
    try discriminate H;
    run; eexists;
    (split; [apply f_equal2; [|reflexivity]; apply f_equal;
             apply f_equal2; [|reflexivity]; merge_filters|]);
    repeat split; reflexivity.
Qed.

Lemma getAllStringsHandler_ok q bank file :
  first_failing q = None ->
  exists filters_applied,
    getAllStringsHandler q (fresh bank file)
    = (inr tt,
       responded bank file 200
         (BodyList (filter (list_keeps q) bank)
                   (Z.of_nat (List.length (filter (list_keeps q) bank)))
                   filters_applied))
    /\ applyFilters q (bank, []) (fresh bank file)
       = (inr (filter (list_keeps q) bank, filters_applied), fresh bank file).
Proof.
  intros H.
  destruct (applyFilters_ok q bank (fresh bank file) H) as (fa & Hrun & _).
  exists fa. split; [|exact Hrun].
  unfold getAllStringsHandler, bind, try_catch, gets.
  cbn [stringsBank fresh] in *. rewrite Hrun. reflexivity.
Qed.

(** A list request is answered 200 or 400, and 200 exactly when no integer
    parameter fails to parse. *)
Lemma getAllStringsHandler_200 q bank file data count filters_applied :
  getAllStringsHandler q (fresh bank file)
  = (inr tt, responded bank file 200 (BodyList data count filters_applied)) ->
  first_failing q = None
  /\ applyFilters q (bank, []) (fresh bank file)
     = (inr (data, filters_applied), fresh bank file)
  /\ data = filter (list_keeps q) bank
  /\ count = Z.of_nat (List.length data).
Proof.
  intros Hrun. destruct (first_failing q) as [name|] eqn:Hff.
  - rewrite (getAllStringsHandler_first_failing q name bank file Hff) in Hrun.
    discriminate Hrun.
  - destruct (getAllStringsHandler_ok q bank file Hff) as (fa & Hok & Happ).
    rewrite Hok in Hrun. injection Hrun as Hd Hc Hfa.
    subst fa. rewrite <- Hd in *. auto.
Qed.

(** X5.  When every integer parameter that is present parses, the list
    handler answers 200 with exactly the records of the collection that
    satisfy every parameter present, in the order of the collection, and
    with their number as [count]; the collection and the file are left as
    they were. *)
Theorem list_returns_the_matching_records :
  forall q bank file,
    first_failing q = None ->
    let data := filter (list_keeps q) bank in
    (exists filters_applied,
        getAllStringsHandler q (fresh bank file)
        = (inr tt,
           responded bank file 200
             (BodyList data (Z.of_nat (List.length data)) filters_applied)))
    /\ (forall r, In r data <-> In r bank /\ list_keeps q r = true)
    /\ (List.length data <= List.length bank)%nat.
Proof.
  intros q bank file H data.
  split.
  - destruct (getAllStringsHandler_ok q bank file H) as (fa & Hok & _).
    exists fa. exact Hok.
  - split; [intros r; apply filter_In|apply filter_length_le].
Qed.

Lemma list_returns_the_matching_records_witness :
  let q := [(js "min_length", QStr (js "5")); (js "max_length", QStr (js "7"));
            (js "contains_character", QStr (js "cd"))] in
  let bank := [example_record "abc"; example_record "abcde";
               example_record "abxde"; example_record "abcdefg";
               example_record "abcdefghi"] in
  first_failing q = None
  /\ filter (list_keeps q) bank
     = [example_record "abcde"; example_record "abcdefg"]
  /\ exists filters_applied,
       getAllStringsHandler q (fresh bank None)
       = (inr tt,
          responded bank None 200
            (BodyList (filter (list_keeps q) bank)
               (Z.of_nat (List.length (filter (list_keeps q) bank)))
               filters_applied)).
Proof.
  intros q bank. split; [reflexivity|]. split; [reflexivity|].
  exact (proj1 (list_returns_the_matching_records q bank None eq_refl)).
Defined.

Lemma list_200_filters_applied q bank file data count filters_applied :
  getAllStringsHandler q (fresh bank file)
  = (inr tt, responded bank file 200 (BodyList data count filters_applied)) ->
  map fst filters_applied = map js (filter (present q) filter_names)
  /\ Map_get filters_applied (js "is_palindrome")
     = option_map (fun v => FBool (is_true_text v))
                  (query_get q "is_palindrome")
  /\ Map_get filters_applied (js "min_length")
     = option_map (fun v => FNum (parseInt (QueryValue_toString v)))
                  (query_get q "min_length")
  /\ Map_get filters_applied (js "max_length")
     = option_map (fun v => FNum (parseInt (QueryValue_toString v)))
                  (query_get q "max_length")
  /\ Map_get filters_applied (js "word_count")
     = option_map (fun v => FNum (parseInt (QueryValue_toString v)))
                  (query_get q "word_count")
  /\ Map_get filters_applied (js "contains_character")
     = option_map FQuery (query_get q "contains_character").
Proof.
  intros Hrun.
  destruct (getAllStringsHandler_200 _ _ _ _ _ _ Hrun) as (Hff & Happ & _).
  destruct (applyFilters_ok q bank (fresh bank file) Hff) as (fa' & Happ' & H).
  rewrite Happ in Happ'. injection Happ' as _ <-. exact H.
Qed.

(** X6.  In a 200 answer of the list handler, [filters_applied] has one key
    for each filter parameter present in the query and no other, in the
    order [is_palindrome], [min_length], [max_length], [word_count],
    [contains_character]; the values are the boolean of the comparison with
    "true", the Numbers which [parseInt] returns (the double nearest to the
    integer read: 9007199254740992 for the text "9007199254740993"), and
    the [contains_character] text as given. *)
Theorem filters_applied_echoes_the_parameters :
  forall q bank file data count filters_applied,
    getAllStringsHandler q (fresh bank file)
    = (inr tt, responded bank file 200 (BodyList data count filters_applied)) ->
    map fst filters_applied = map js (filter (present q) filter_names)
    /\ Map_get filters_applied (js "is_palindrome")
       = option_map (fun v => FBool (is_true_text v))
                    (query_get q "is_palindrome")
    /\ Map_get filters_applied (js "min_length")
       = option_map (fun v => FNum (parseInt (QueryValue_toString v)))
                    (query_get q "min_length")
    /\ Map_get filters_applied (js "max_length")
       = option_map (fun v => FNum (parseInt (QueryValue_toString v)))
                    (query_get q "max_length")
    /\ Map_get filters_applied (js "word_count")
       = option_map (fun v => FNum (parseInt (QueryValue_toString v)))
                    (query_get q "word_count")
    /\ Map_get filters_applied (js "contains_character")
       = option_map FQuery (query_get q "contains_character")
    /\ parseInt (js "9007199254740993") = Some 9007199254740992%Z.
Proof.
  intros q bank file data count fa Hrun.
  destruct (list_200_filters_applied q bank file data count fa Hrun)
    as (Hkeys & Hpal & Hmin & Hmax & Hword & Hchar).
  repeat (split; [assumption|]). vm_compute. reflexivity.
Qed.

Lemma filters_applied_echoes_the_parameters_witness :
  let q := [(js "word_count", QStr (js " 2 words"));
            (js "is_palindrome", QStr (js "TRUE"));
            (js "page", QStr (js "3"))] in
  let bank := [example_record "hello world"; example_record "level"] in
  let filters_applied :=
    [(js "is_palindrome", FBool false); (js "word_count", FNum (Some 2%Z))] in
  getAllStringsHandler q (fresh bank None)
  = (inr tt,
     responded bank None 200
       (BodyList [example_record "hello world"] 1 filters_applied))
  /\ map fst filters_applied = map js (filter (present q) filter_names).
Proof.
  intros q bank filters_applied. split; [reflexivity|].
  exact (proj1
    (filters_applied_echoes_the_parameters q bank None
       [example_record "hello world"] 1%Z filters_applied eq_refl)).
Defined.

(** X7.  An [is_palindrome] parameter whose value is anything but the
    text "true" ("false", "TRUE", "1", a repeated parameter) selects the
    records which are not palindromes. *)
Theorem is_palindrome_other_than_true_selects_non_palindromes :
  forall q v bank file data count filters_applied,
    query_get q "is_palindrome" = Some v ->
    v <> QStr (js "true") ->
    getAllStringsHandler q (fresh bank file)
    = (inr tt, responded bank file 200 (BodyList data count filters_applied)) ->
    (forall r, In r data -> is_palindrome (properties r) = false)
    /\ Map_get filters_applied (js "is_palindrome") = Some (FBool false).
Proof.
  intros q v bank file data count fa Hq Hv Hrun.
  assert (Hfalse : is_true_text v = false).
  { destruct v as [s|items]; [|reflexivity]. simpl.
    apply str_eqb_neq. congruence. }
  destruct (getAllStringsHandler_200 _ _ _ _ _ _ Hrun) as (Hff & _ & Hd & _).
  split.
  - intros r Hr. rewrite Hd in Hr. apply filter_In in Hr as [_ Hk].
    unfold list_keeps in Hk. rewrite Hq, Hfalse in Hk.
    rewrite !andb_true_iff in Hk. destruct Hk as [[[[Hp _] _] _] _].
    destruct (is_palindrome (properties r)); [discriminate Hp|reflexivity].
  - destruct (list_200_filters_applied _ _ _ _ _ _ Hrun) as (_ & Hp & _).
    rewrite Hp, Hq. simpl. rewrite Hfalse. reflexivity.
Qed.

Lemma is_palindrome_other_than_true_selects_non_palindromes_witness :
  let q := [(js "is_palindrome", QStr (js "TRUE"))] in
  let bank := [example_record "hello world"; example_record "level"] in
  query_get q "is_palindrome" = Some (QStr (js "TRUE"))
  /\ QStr (js "TRUE") <> QStr (js "true")
  /\ forall r, In r [example_record "hello world"] ->
               is_palindrome (properties r) = false.
Proof.
  intros q bank.
  assert (Hne : QStr (js "TRUE") <> QStr (js "true")) by discriminate.
  split; [reflexivity|]. split; [exact Hne|].
  exact (proj1
    (is_palindrome_other_than_true_selects_non_palindromes q
       (QStr (js "TRUE")) bank None [example_record "hello world"] 1%Z
       [(js "is_palindrome", FBool false)] eq_refl Hne eq_refl)).
Defined.

(** *** Digits followed by something else *)

(** A text made of decimal digits followed by a code unit which is neither
    a digit nor [x] or [X] parses to the value of the digits. *)
Lemma parseInt_numeric_prefix ds c rest :
  ds <> [] -> forallb isDigit ds = true ->
  isDigit c = false -> c <> 120%N -> c <> 88%N ->
  parseInt (ds ++ c :: rest) = Some (toDouble (Z.of_N (decimalValue ds))).
Proof.
  intros Hne Hall Hc Hx HX. destruct ds as [|d ds]; [congruence|].
  pose proof Hall as Hall'.
  cbn [forallb] in Hall. apply andb_true_iff in Hall as [Hd Hds].
  pose proof (isDigit_range d Hd) as Hr.
  unfold parseInt. cbn [app trimStart]. rewrite (isDigit_not_white d Hd).
  assert (Hsign : parseSign (d :: ds ++ c :: rest) = (1%Z, d :: ds ++ c :: rest)).
  { unfold parseSign.
    replace (d =? 45)%N with false by (symmetry; apply N.eqb_neq; lia).
    replace (d =? 43)%N with false by (symmetry; apply N.eqb_neq; lia).
    reflexivity. }
  assert (Hradix : parseRadix (d :: ds ++ c :: rest)
                   = (10%Z, d :: ds ++ c :: rest)).
  { unfold parseRadix. destruct ds as [|x ds']; cbn [app].
    - replace (c =? 120)%N with false by (symmetry; apply N.eqb_neq; exact Hx).
      replace (c =? 88)%N with false by (symmetry; apply N.eqb_neq; exact HX).
      rewrite andb_false_r. reflexivity.
    - cbn [forallb] in Hds. apply andb_true_iff in Hds as [Hxd _].
      apply isDigit_range in Hxd.
      replace (x =? 120)%N with false by (symmetry; apply N.eqb_neq; lia).
      replace (x =? 88)%N with false by (symmetry; apply N.eqb_neq; lia).
      rewrite andb_false_r. reflexivity. }
  rewrite Hsign. cbn [fst snd]. rewrite Hradix. cbn [fst snd].
  change (d :: ds ++ c :: rest) with ((d :: ds) ++ c :: rest).
  rewrite (parseDigits_stops (d :: ds) c rest Hall' Hc).
  cbn [parseDigits]. rewrite (radixDigit_decimal d Hd).
  replace (10 * 0 + (Z.of_N d - 48))%Z with (Z.of_N (d - 48)) by lia.
  rewrite (parseDigits_value ds Hds). unfold decimalValue. cbn [fold_left].
  cbn [option_map]. rewrite Z.mul_1_l. reflexivity.
Qed.

(** X8.  A [min_length] whose text is decimal digits followed by other
    characters (not starting with [x] or [X]) is accepted: the request is
    not rejected for that parameter, and a 200 answer records the Number
    the digits parse to, which is their value up to 2^53 and the nearest
    double beyond, and returns only records at least that long. *)
Theorem min_length_numeric_prefix_is_accepted :
  forall q ds c rest bank file data count filters_applied,
    query_get q "min_length" = Some (QStr (ds ++ c :: rest)) ->
    ds <> [] -> forallb isDigit ds = true ->
    isDigit c = false -> c <> 120%N -> c <> 88%N ->
    getAllStringsHandler q (fresh bank file)
    = (inr tt, responded bank file 200 (BodyList data count filters_applied)) ->
    let min := toDouble (Z.of_N (decimalValue ds)) in
    non_numeric q "min_length" = false
    /\ Map_get filters_applied (js "min_length") = Some (FNum (Some min))
    /\ ((Z.of_N (decimalValue ds) <= 2 ^ 53)%Z ->
        min = Z.of_N (decimalValue ds))
    /\ forall r, In r data -> (min <= length_ (properties r))%Z.
Proof.
  intros q ds c rest bank file data count fa Hq Hne Hall Hc Hx HX Hrun min.
  pose proof (parseInt_numeric_prefix ds c rest Hne Hall Hc Hx HX) as Hp.
  fold min in Hp.
  split; [unfold non_numeric; rewrite Hq; cbn [QueryValue_toString];
          rewrite Hp; reflexivity|].
  destruct (list_200_filters_applied _ _ _ _ _ _ Hrun) as (_ & _ & Hmin & _).
  split; [|split].
  - rewrite Hmin, Hq. cbn [option_map QueryValue_toString]. rewrite Hp.
    reflexivity.
  - intros Hsmall. apply toDouble_exact.
    pose proof (N2Z.is_nonneg (decimalValue ds)). lia.
  - destruct (getAllStringsHandler_200 _ _ _ _ _ _ Hrun) as (_ & _ & Hd & _).
    intros r Hr. rewrite Hd in Hr. apply filter_In in Hr as [_ Hk].
    unfold list_keeps in Hk. rewrite Hq in Hk.
    cbn [QueryValue_toString] in Hk. rewrite Hp in Hk.
    rewrite !andb_true_iff in Hk. destruct Hk as [[[[_ Hlen] _] _] _].
    apply Z.leb_le in Hlen. exact Hlen.
Qed.

Lemma min_length_numeric_prefix_is_accepted_witness :
  let q := [(js "min_length", QStr (js "5abc"))] in
  let bank := [example_record "abc"; example_record "abcde";
               example_record "abcdefg"] in
  let data := [example_record "abcde"; example_record "abcdefg"] in
  query_get q "min_length" = Some (QStr (js "5" ++ 97%N :: js "bc"))
  /\ getAllStringsHandler q (fresh bank None)
     = (inr tt,
        responded bank None 200
          (BodyList data 2 [(js "min_length", FNum (Some 5%Z))]))
  /\ forall r, In r data -> (5 <= length_ (properties r))%Z.
Proof.
  intros q bank data.
  assert (H5 : js "5" <> []) by discriminate.
  assert (Hx : 97%N <> 120%N) by discriminate.
  assert (HX : 97%N <> 88%N) by discriminate.
  split; [reflexivity|]. split; [reflexivity|].
  exact (proj2 (proj2 (proj2
    (min_length_numeric_prefix_is_accepted q (js "5") 97%N (js "bc")
       bank None data 2%Z [(js "min_length", FNum (Some 5%Z))]
       eq_refl H5 eq_refl eq_refl Hx HX eq_refl)))).
Defined.

(** ** What a request does to the collection and the file *)

Section Store.

Variable hashString : jsstring -> jsstring.
Variable JSON_parse : jsstring -> option JSValue.
Variable URLSearchParams_entries : jsstring -> list (jsstring * jsstring).

Let serve := server hashString JSON_parse URLSearchParams_entries.

Lemma store_step_same bank file st' :
  same_store (fresh bank file) st' -> store_step hashString bank file st'.
Proof. intros [H1 H2]. left. split; assumption. Qed.

Lemma finalHandler_store env req bank file :
  store_step hashString bank file
    (snd (finalHandler hashString env req (fresh bank file))).
Proof.
  destruct (req_body req) as [| b | t | s | items | fields] eqn:E.
  1: { rewrite finalHandler_null by exact E. left. split; reflexivity. }
  all: rewrite finalHandler_checks by congruence; rewrite E;
    cbn [snd value_field]; try (left; split; reflexivity).
  destruct (Map_get fields (js "value")) as [[| b | t | val | items | fs]|];
    try (left; split; reflexivity).
  destruct (existsb _ bank) eqn:Ex; [left; split; reflexivity|].
  right; left. exists val, (now env). split; [exact Ex|].
  cbv zeta. destruct (writeFile_ok env); cbn [responded stringsBank
    stringsFile res]; split; auto.
Qed.

Lemma deleteStringHandler_store env stringValue bank file :
  store_step hashString bank file
    (snd (deleteStringHandler env stringValue (fresh bank file))).
Proof.
  rewrite deleteStringHandler_run. cbn [snd].
  destruct (decodeURIComponent stringValue) as [d|];
    [|left; split; reflexivity].
  cbv zeta. destruct (existsb _ bank) eqn:Ex; [|left; split; reflexivity].
  right; right. exists d. split; [exact Ex|].
  destruct (writeFile_ok env); cbn [responded stringsBank stringsFile res];
    split; auto.
Qed.

Lemma router_store env req bank file :
  store_step hashString bank file
    (snd (router hashString env req (fresh bank file))).
Proof.
  unfold router.
  repeat match goal with
         | |- context [if ?c then _ else _] => destruct c
         end;
    first
      [ apply finalHandler_store
      | apply deleteStringHandler_store
      | apply store_step_same;
        first [ apply getAllStringsHandler_same_store
              | apply naturalLanguageHandler_same_store
              | apply getStringHandler_same_store
              | apply send_same_store ] ].
Qed.

(** Every request is one step of the store. *)
Lemma server_store env req bank file :
  store_step hashString bank file (snd (serve env req (fresh bank file))).
Proof.
  unfold serve, server, middlewareStack, next, convertStream.
  repeat match goal with
         | |- context [if ?c then _ else _] => destruct c
         | |- context [match JSON_parse ?x with _ => _ end] =>
             destruct (JSON_parse x)
         end;
    first [ apply router_store
          | apply store_step_same; apply send_same_store ].
Qed.

End Store.

(** ** Which requests are answered *)






Section Answers.

Variable hashString : jsstring -> jsstring.
Variable JSON_parse : jsstring -> option JSValue.
Variable URLSearchParams_entries : jsstring -> list (jsstring * jsstring).

Let serve := server hashString JSON_parse URLSearchParams_entries.







End Answers.

(** ** Invariants of the collection *)

Lemma palindrome_test_iff (value : jsstring) :
  palindrome_test value = true <-> value <> [] /\ value = rev value.
Proof.
  unfold palindrome_test.
  rewrite andb_true_iff, Nat.ltb_lt, str_eqb_eq, join_rev_split.
  destruct value as [|c value]; simpl.
  - split; [lia|intros [H _]; congruence].
  - split; [intros [_ H]; split; [discriminate|congruence]|].
    intros [_ H]; split; [lia|congruence].
Qed.

Lemma responseObject_analysed hashedString value now :
  analysed (responseObject hashedString value now).
Proof. reflexivity. Qed.

Lemma store_step_unique hashString bank file st' :
  store_step hashString bank file st' ->
  unique_values bank -> unique_values (stringsBank st').
Proof.
  intros [[Hb _]|[(val & now & Hnew & Hb & _)|(d & _ & Hb & _)]] Huniq;
    rewrite Hb.
  - exact Huniq.
  - unfold unique_values in *. rewrite map_app. cbn [map].
    apply NoDup_app; [exact Huniq|constructor; [intros []|constructor]|].
    intros v Hin [Hv|[]]. cbn [value responseObject] in Hv. subst v.
    apply in_map_iff in Hin as (x & Hx & Hin).
    assert (Hex : existsb (fun el => str_eqb (value el) val) bank = true).
    { apply existsb_exists. exists x. split; [exact Hin|].
      apply str_eqb_eq. exact Hx. }
    congruence.
  - apply remove_first_unique. exact Huniq.
Qed.

Lemma store_step_analysed hashString bank file st' :
  store_step hashString bank file st' ->
  Forall analysed bank -> Forall analysed (stringsBank st').
Proof.
  intros [[Hb _]|[(val & now & Hnew & Hb & _)|(d & _ & Hb & _)]] Hall;
    rewrite Hb.
  - exact Hall.
  - apply Forall_app. split; [exact Hall|].
    constructor; [apply responseObject_analysed|constructor].
  - apply Forall_forall. intros r Hr. apply remove_first_In in Hr.
    revert r Hr. apply Forall_forall. exact Hall.
Qed.

(** X10.  A request handled on its own, no other request being handled
    while it waits for the digest or for the file, does not make two
    records share a value: if the values of the collection are distinct
    when it arrives, they are distinct when the server is done with it,
    whatever the request, the clock and the file system.  (Two creations of
    one value which overlap are outside this statement.) *)
Theorem server_keeps_values_distinct :
  forall hashString JSON_parse URLSearchParams_entries env req bank file,
    unique_values bank ->
    unique_values
      (stringsBank
         (snd (server hashString JSON_parse URLSearchParams_entries env req
                      (fresh bank file)))).
Proof.
  intros h J U env req bank file Huniq.
  eapply store_step_unique; [apply (server_store h J U)|exact Huniq].
Qed.

Lemma server_keeps_values_distinct_witness :
  let a := example_record "level" in
  let b := example_record "hello" in
  let out :=
    server example_digest (example_JSON_parse "hello")
      (example_form_entries "hello") example_env (example_post "hello")
      (fresh [a] None) in
  unique_values [a]
  /\ stringsBank (snd out) = [a; b]
  /\ unique_values (stringsBank (snd out)).
Proof.
  intros a b out.
  assert (Huniq : unique_values [a]).
  { unfold unique_values. simpl. constructor; [intros []|constructor]. }
  split; [exact Huniq|]. split; [reflexivity|].
  exact (server_keeps_values_distinct example_digest
           (example_JSON_parse "hello") (example_form_entries "hello")
           example_env (example_post "hello") [a] None Huniq).
Defined.

(** X11.  For a request handled on its own, no other request being handled
    while it waits for the digest or for the file: if the file holds the
    collection when the request arrives, then after it either the file
    holds the collection again, or the request was answered 500 "Internal
    server error".  (Requests which change the collection while a write is
    in flight are outside this statement.) *)
Theorem server_keeps_file_in_step_or_answers_500 :
  forall hashString JSON_parse URLSearchParams_entries env req bank,
    let st' :=
      snd (server hashString JSON_parse URLSearchParams_entries env req
                  (fresh bank (Some bank))) in
    stringsFile st' = Some (stringsBank st')
    \/ res st' = Some {| statusCode := 500; body := InternalServerError |}.
Proof.
  intros h J U env req bank st'.
  destruct (server_store h J U env req bank (Some bank))
    as [[Hb Hf]|[(val & now & _ & _ & H)|(d & _ & _ & H)]].
  - left. fold st' in Hb, Hf. rewrite Hf, Hb. reflexivity.
  - fold st' in H. destruct H as [H|H]; [left|right]; exact H.
  - fold st' in H. destruct H as [H|H]; [left|right]; exact H.
Qed.

(** X12.  Every record the server stores carries the properties of its own
    value: if that holds of the collection when a request arrives, it
    holds when the server is done with it. *)
Theorem server_keeps_records_analysed :
  forall hashString JSON_parse URLSearchParams_entries env req bank file,
    Forall analysed bank ->
    Forall analysed
      (stringsBank
         (snd (server hashString JSON_parse URLSearchParams_entries env req
                      (fresh bank file)))).
Proof.
  intros h J U env req bank file Hall.
  eapply store_step_analysed; [apply (server_store h J U)|exact Hall].
Qed.

Lemma server_keeps_records_analysed_witness :
  let a := example_record "level" in
  let b := example_record "hello" in
  let out :=
    server example_digest (example_JSON_parse "hello")
      (example_form_entries "hello") example_env (example_post "hello")
      (fresh [a] None) in
  Forall analysed [a]
  /\ stringsBank (snd out) = [a; b]
  /\ Forall analysed (stringsBank (snd out)).
Proof.
  intros a b out.
  assert (Hall : Forall analysed [a]).
  { constructor; [reflexivity|constructor]. }
  split; [exact Hall|]. split; [reflexivity|].
  exact (server_keeps_records_analysed example_digest
           (example_JSON_parse "hello") (example_form_entries "hello")
           example_env (example_post "hello") [a] None Hall).
Defined.

(** X13.  Over a collection of analysed records, what the list handler
    returns agrees with the values themselves: with [is_palindrome=true]
    every returned value is non-empty and equal to its reversal, with
    [min_length] and [max_length] the number of code units of every
    returned value is within the bounds, and with [word_count] every
    returned value has that many words. *)
Theorem list_filters_agree_with_the_values :
  forall q bank file data count filters_applied r,
    Forall analysed bank ->
    getAllStringsHandler q (fresh bank file)
    = (inr tt, responded bank file 200 (BodyList data count filters_applied)) ->
    In r data ->
    (query_get q "is_palindrome" = Some (QStr (js "true")) ->
     value r <> [] /\ value r = rev (value r))
    /\ (forall v min,
          query_get q "min_length" = Some v ->
          parseInt (QueryValue_toString v) = Some min ->
          (min <= Z.of_nat (List.length (value r)))%Z)
    /\ (forall v max,
          query_get q "max_length" = Some v ->
          parseInt (QueryValue_toString v) = Some max ->
          (Z.of_nat (List.length (value r)) <= max)%Z)
    /\ (forall v n,
          query_get q "word_count" = Some v ->
          parseInt (QueryValue_toString v) = Some n ->
          wordCount (value r) = n).
Proof.
  intros q bank file data count fa r Hall Hrun Hr.
  destruct (getAllStringsHandler_200 _ _ _ _ _ _ Hrun) as (_ & _ & Hd & _).
  rewrite Hd in Hr. apply filter_In in Hr as [Hin Hk].
  assert (Han : analysed r)
    by (exact (proj1 (Forall_forall analysed bank) Hall r Hin)).
  pose proof (f_equal properties Han) as Hp. cbn [properties responseObject] in Hp.
  unfold list_keeps in Hk. rewrite Hp in Hk.
  cbn [is_palindrome length_ word_count] in Hk.
  rewrite !andb_true_iff in Hk.
  destruct Hk as [[[[Hpal Hmin] Hmax] Hwc] _].
  split; [|split; [|split]].
  - intros Hq. rewrite Hq in Hpal. cbn [is_true_text] in Hpal.
    rewrite str_eqb_refl in Hpal. apply palindrome_test_iff.
    destruct (palindrome_test (value r)); [reflexivity|discriminate Hpal].
  - intros v min Hq Hparse. rewrite Hq, Hparse in Hmin.
    apply Z.leb_le in Hmin. exact Hmin.
  - intros v max Hq Hparse. rewrite Hq, Hparse in Hmax.
    apply Z.leb_le in Hmax. exact Hmax.
  - intros v n Hq Hparse. rewrite Hq, Hparse in Hwc.
    apply Z.eqb_eq in Hwc. exact Hwc.
Qed.

Lemma list_filters_agree_with_the_values_witness :
  let q := [(js "is_palindrome", QStr (js "true"));
            (js "min_length", QStr (js "4"))] in
  let bank := [example_record "level"; example_record "hello";
               example_record "aba"] in
  let r := example_record "level" in
  Forall analysed bank
  /\ getAllStringsHandler q (fresh bank None)
     = (inr tt,
        responded bank None 200
          (BodyList [r] 1
             [(js "is_palindrome", FBool true);
              (js "min_length", FNum (Some 4%Z))]))
  /\ (value r <> [] /\ value r = rev (value r)).
Proof.
  intros q bank r.
  assert (Hall : Forall analysed bank).
  { repeat (constructor; [reflexivity|]). constructor. }
  split; [exact Hall|]. split; [reflexivity|].
  exact (proj1
    (list_filters_agree_with_the_values q bank None [r] 1%Z
       [(js "is_palindrome", FBool true); (js "min_length", FNum (Some 4%Z))]
       r Hall eq_refl (or_introl eq_refl)) eq_refl).
Defined.

(** ** When the file cannot be written *)

Lemma after_failed_write_cases env old data :
  after_failed_write env old data = old
  \/ after_failed_write env old data = None
  \/ after_failed_write env old data = Some data.
Proof. unfold after_failed_write. destruct (writeFile_failure env); auto. Qed.

(** X14.  When [fs.writeFile] fails during a creation, the answer is 500
    but the record stays in the collection.  The file is what the failed
    write left of it: the old content when the failure came before the
    file was opened, no complete collection when the file was emptied or
    written in part, the new collection when the data were written.  The
    same request sent again is answered 409, not 201, whatever the file
    holds. *)
Theorem create_write_failure_is_not_rolled_back :
  forall (hashString : jsstring -> jsstring) env env' req bank file val,
    value_field (req_body req) = Some (JStr val) ->
    existsb (fun el => str_eqb (value el) val) bank = false ->
    writeFile_ok env = false ->
    let r := responseObject (hashString val) val (now env) in
    let file' := after_failed_write env file (bank ++ [r]) in
    finalHandler hashString env req (fresh bank file)
    = (inr tt, responded (bank ++ [r]) file' 500 InternalServerError)
    /\ (file' = file \/ file' = None \/ file' = Some (bank ++ [r]))
    /\ finalHandler hashString env' req (fresh (bank ++ [r]) file')
       = (inr tt,
          responded (bank ++ [r]) file' 409
            (BodyError (js "String already exists in the system"))).
Proof.
  intros hashString env env' req bank file val Hval Hnew Hw r file'.
  assert (Hnn : req_body req <> JNull).
  { intros E. rewrite E in Hval. discriminate Hval. }
  split; [|split].
  - rewrite finalHandler_checks by exact Hnn. rewrite Hval, Hnew. cbv zeta.
    rewrite Hw. reflexivity.
  - apply after_failed_write_cases.
  - rewrite finalHandler_checks by exact Hnn. rewrite Hval, existsb_app.
    cbn [existsb r value responseObject]. rewrite str_eqb_refl, orb_true_r.
    reflexivity.
Qed.

Lemma create_write_failure_is_not_rolled_back_witness :
  let env := example_env_failing in
  let r := example_record "level" in
  value_field (req_body (example_post "level")) = Some (JStr (js "level"))
  /\ writeFile_ok env = false
  /\ finalHandler example_digest env (example_post "level")
       (fresh [] (Some []))
     = (inr tt, responded [r] None 500 InternalServerError).
Proof.
  intros env r. split; [reflexivity|]. split; [reflexivity|].
  exact (proj1
    (create_write_failure_is_not_rolled_back example_digest env example_env
       (example_post "level") [] (Some []) (js "level")
       eq_refl eq_refl eq_refl)).
Defined.

(** X15.  When [fs.writeFile] fails during a deletion, the answer is 500
    but the record is gone from the collection.  The file is what the
    failed write left of it: the old content, which still has the record,
    when the failure came before the file was opened, no complete
    collection when the file was emptied or written in part, the new
    collection when the data were written.  With distinct values, the same
    request sent again is answered 404, whatever the file holds. *)
Theorem delete_write_failure_is_not_rolled_back :
  forall env env' stringValue decodedValue bank file,
    unique_values bank ->
    decodeURIComponent stringValue = Some decodedValue ->
    existsb (fun el => str_eqb (value el) decodedValue) bank = true ->
    writeFile_ok env = false ->
    let bank' := remove_first (fun el => str_eqb (value el) decodedValue) bank in
    let file' := after_failed_write env file bank' in
    deleteStringHandler env stringValue (fresh bank file)
    = (inr tt, responded bank' file' 500 InternalServerError)
    /\ (file' = file \/ file' = None \/ file' = Some bank')
    /\ deleteStringHandler env' stringValue (fresh bank' file')
       = (inr tt,
          responded bank' file' 404
            (BodyError (js "String does not exist in the system"))).
Proof.
  intros env env' seg d bank file Huniq Hdec Hex Hw bank' file'.
  split; [|split].
  - rewrite deleteStringHandler_run, Hdec. cbv zeta. rewrite Hex, Hw.
    reflexivity.
  - apply after_failed_write_cases.
  - rewrite deleteStringHandler_run, Hdec. cbv zeta. subst bank'.
    rewrite (remove_first_value_gone d bank Huniq). reflexivity.
Qed.

Lemma delete_write_failure_is_not_rolled_back_witness :
  let env := example_env_failing in
  let a := example_record "level" in
  let b := example_record "hello" in
  unique_values [a; b]
  /\ writeFile_ok env = false
  /\ deleteStringHandler env (js "level") (fresh [a; b] (Some [a; b]))
     = (inr tt, responded [b] None 500 InternalServerError).
Proof.
  intros env a b.
  assert (Huniq : unique_values [a; b]).
  { unfold unique_values. simpl. constructor.
    - intros [H|[]]. discriminate H.
    - constructor; [intros []|constructor]. }
  split; [exact Huniq|]. split; [reflexivity|].
  exact (proj1
    (delete_write_failure_is_not_rolled_back env example_env (js "level")
       (js "level") [a; b] (Some [a; b]) Huniq eq_refl eq_refl eq_refl)).
Defined.

(** ** The middleware and the content type *)

Section ContentType.

Variable hashString : jsstring -> jsstring.
Variable JSON_parse : jsstring -> option JSValue.
Variable URLSearchParams_entries : jsstring -> list (jsstring * jsstring).

Let serve := server hashString JSON_parse URLSearchParams_entries.

(** X16.  A POST to [/strings] whose payload is empty, or whose content
    type is neither exactly [application/json] nor exactly
    [application/x-www-form-urlencoded] (a missing header, or
    [application/json; charset=utf-8]), is answered 400 "Invalid request
    body or missing 'value' field" whatever the payload holds; nothing is
    parsed and nothing is stored. *)
Theorem post_unrecognised_content_type_answers_400 :
  forall env req bank file,
    method req = js "POST" ->
    pathname req = js "/strings" ->
    payload req = []
    \/ (opt_str_eqb (content_type req) "application/json" = false
        /\ opt_str_eqb (content_type req) "application/x-www-form-urlencoded"
           = false) ->
    serve env req (fresh bank file)
    = (inr tt,
       responded bank file 400
         (BodyError (js "Invalid request body or missing 'value' field"))).
Proof.
  intros env req bank file Hm Hp Hcase.
  assert (Hrouter :
    router hashString env (set_body req (JObj [])) (fresh bank file)
    = (inr tt,
       responded bank file 400
         (BodyError (js "Invalid request body or missing 'value' field")))).
  { unfold router. cbn [method pathname set_body]. rewrite Hm, Hp.
    cbn [andb str_eqb]. rewrite !str_eqb_refl. cbn [andb].
    rewrite finalHandler_checks by discriminate. reflexivity. }
  unfold serve, server, middlewareStack, next, convertStream.
  cbn [method payload content_type set_body]. rewrite Hm, str_eqb_refl.
  cbn [negb]. destruct Hcase as [Hempty|[Hj Hf]].
  - rewrite Hempty. cbn [List.length Nat.eqb]. exact Hrouter.
  - rewrite Hj, Hf. destruct (List.length (payload req) =? 0)%nat;
      exact Hrouter.
Qed.

End ContentType.

Lemma post_unrecognised_content_type_answers_400_witness :
  let req :=
    {| method := js "POST"; pathname := js "/strings"; query := [];
       content_type := Some (js "application/json; charset=utf-8");
       payload := js "{}"; req_body := JNull |} in
  method req = js "POST" /\ pathname req = js "/strings"
  /\ opt_str_eqb (content_type req) "application/json" = false
  /\ server example_digest (example_JSON_parse "level")
       (example_form_entries "level") example_env req (fresh [] None)
     = (inr tt,
        responded [] None 400
          (BodyError (js "Invalid request body or missing 'value' field"))).
Proof.
  intros req. repeat (split; [reflexivity|]).
  exact (post_unrecognised_content_type_answers_400 example_digest
           (example_JSON_parse "level") (example_form_entries "level")
           example_env req [] None eq_refl eq_refl
           (or_intror (conj eq_refl eq_refl))).
Defined.

(** *** Bodies read from a form *)

Section ObjectValues.

Context {V : Type} (P : V -> Prop).

Implicit Types (o : list (jsstring * V)) (k : jsstring) (v : V).

Lemma Map_get_value o k v : Forall (fun kv => P (snd kv)) o -> Map_get o k = Some v -> P v.
Proof.
  induction o as [|[k0 v0] o IH]; simpl; intros Hall Hget; [discriminate|].
  inversion Hall as [|? ? Hv Ho]; subst.
  destruct (str_eqb k0 k); [injection Hget as <-; exact Hv|auto].
Qed.

Lemma Map_set_values o k v : P v -> Forall (fun kv => P (snd kv)) o -> Forall (fun kv => P (snd kv)) (Map_set o k v).
Proof.
  intros Hv. induction o as [|[k0 v0] o IH]; simpl; intros Hall.
  - constructor; [exact Hv|constructor].
  - inversion Hall as [|? ? Hv0 Ho]; subst.
    destruct (str_eqb k0 k); constructor; auto.
Qed.

Lemma insert_index_values i o k v :
  P v -> Forall (fun kv => P (snd kv)) o -> Forall (fun kv => P (snd kv)) (insert_index i k v o).
Proof.
  intros Hv. induction o as [|[k0 v0] o IH]; simpl; intros Hall.
  - constructor; [exact Hv|constructor].
  - inversion Hall as [|? ? Hv0 Ho]; subst.
    destruct (arrayIndex k0) as [j|]; [destruct (j <? i)%N|];
      repeat constructor; auto.
Qed.

Lemma obj_set_values o k v : P v -> Forall (fun kv => P (snd kv)) o -> Forall (fun kv => P (snd kv)) (obj_set k v o).
Proof.
  intros Hv Hall. unfold obj_set.
  destruct (Map_get o k); [apply Map_set_values; assumption|].
  destruct (arrayIndex k); [apply insert_index_values; assumption|].
  apply Forall_app. split; [exact Hall|]. constructor; [exact Hv|constructor].
Qed.

Lemma Object_fromEntries_values entries :
  Forall (fun kv => P (snd kv)) entries -> Forall (fun kv => P (snd kv)) (Object_fromEntries entries).
Proof.
  unfold Object_fromEntries.
  assert (H : forall o, Forall (fun kv => P (snd kv)) entries -> Forall (fun kv => P (snd kv)) o ->
                Forall (fun kv => P (snd kv))
                  (fold_left (fun o kv => obj_set (fst kv) (snd kv) o)
                             entries o)).
  { induction entries as [|[k v] es IH]; simpl; intros o He Ho; [exact Ho|].
    inversion He as [|? ? Hv Hes]; subst.
    apply IH; [exact Hes|]. apply obj_set_values; assumption. }
  intros He. apply H; [exact He|constructor].
Qed.

End ObjectValues.

Section Form.

Variable hashString : jsstring -> jsstring.
Variable JSON_parse : jsstring -> option JSValue.
Variable URLSearchParams_entries : jsstring -> list (jsstring * jsstring).

Let serve := server hashString JSON_parse URLSearchParams_entries.

(** The ['value'] of a body read from a form is a string when there is
    one. *)
Lemma form_value_is_a_string payload :
  match value_field
          (JObj (Object_fromEntries
                   (map (fun kv => (fst kv, JStr (snd kv)))
                        (URLSearchParams_entries payload))))
  with
  | None | Some (JStr _) => True
  | Some _ => False
  end.
Proof.
  cbn [value_field].
  destruct (Map_get _ (js "value")) as [v|] eqn:E; [|exact I].
  assert (Hs : exists s, v = JStr s).
  { eapply (Map_get_value (fun v => exists s, v = JStr s)); [|exact E].
    apply (Object_fromEntries_values (fun v => exists s, v = JStr s)).
    apply Forall_forall.
    intros [k w] Hin. apply in_map_iff in Hin as ([k' s] & Heq & _).
    injection Heq as _ <-. cbn [snd]. eauto. }
  destruct Hs as [s ->]. exact I.
Qed.

(** X17.  A POST to [/strings] with the content type
    [application/x-www-form-urlencoded] is never answered 422: a form only
    carries strings, so the type check on ['value'] cannot fail. *)
Theorem form_post_is_never_answered_422 :
  forall env req bank file b,
    method req = js "POST" ->
    pathname req = js "/strings" ->
    content_type req = Some (js "application/x-www-form-urlencoded") ->
    res (snd (serve env req (fresh bank file)))
    <> Some {| statusCode := 422; body := b |}.
Proof.
  intros env req bank file b Hm Hp Hct.
  assert (Hroute : forall r,
             method r = js "POST" -> pathname r = js "/strings" ->
             router hashString env r (fresh bank file)
             = finalHandler hashString env r (fresh bank file)).
  { intros r Hmr Hpr. unfold router. rewrite Hmr, Hpr, !str_eqb_refl.
    reflexivity. }
  unfold serve, server, middlewareStack, next, convertStream.
  cbn [method payload content_type set_body]. rewrite Hm, str_eqb_refl, Hct.
  cbn [negb]. replace (opt_str_eqb (Some (js "application/x-www-form-urlencoded"))
                         "application/json") with false by reflexivity.
  replace (opt_str_eqb (Some (js "application/x-www-form-urlencoded"))
             "application/x-www-form-urlencoded") with true by reflexivity.
  destruct (List.length (payload req) =? 0)%nat.
  - rewrite Hroute by assumption.
    rewrite finalHandler_checks by discriminate. discriminate.
  - rewrite Hroute by assumption.
    rewrite finalHandler_checks by discriminate.
    cbn [req_body].
    pose proof (form_value_is_a_string (payload req)) as Hv.
    destruct (value_field _) as [[| ? | ? | val | ? | ?]|];
      try contradiction; try discriminate.
    destruct (existsb _ bank); [discriminate|].
    cbv zeta. destruct (writeFile_ok env); discriminate.
Qed.

End Form.

Lemma form_post_is_never_answered_422_witness :
  let req :=
    {| method := js "POST"; pathname := js "/strings"; query := [];
       content_type := Some (js "application/x-www-form-urlencoded");
       payload := js "value=level"; req_body := JNull |} in
  let out :=
    server example_digest (example_JSON_parse "level")
      (example_form_entries "level") example_env req (fresh [] None) in
  method req = js "POST" /\ pathname req = js "/strings"
  /\ res (snd out)
     = Some {| statusCode := 201; body := BodySuccess (example_record "level") |}
  /\ res (snd out)
     <> Some {| statusCode := 422; body := BodyEmpty |}.
Proof.
  intros req out. repeat (split; [reflexivity|]).
  exact (form_post_is_never_answered_422 example_digest
           (example_JSON_parse "level") (example_form_entries "level")
           example_env req [] None BodyEmpty eq_refl eq_refl eq_refl).
Defined.

(** ** Routes that do not exist *)

Section NotFound.

Variable hashString : jsstring -> jsstring.
Variable JSON_parse : jsstring -> option JSValue.
Variable URLSearchParams_entries : jsstring -> list (jsstring * jsstring).

Let serve := server hashString JSON_parse URLSearchParams_entries.

(** X18.  A request which is not a POST is answered 404 "Route not found",
    the collection and the file untouched, when its method is neither GET
    nor DELETE, and also when its path is not [/strings] and does not
    split on [/] into exactly three parts of which the second is
    [strings] (so [/], [/string/x] and [/strings/a/b] are not found, and a
    value containing [/] cannot be fetched unless the [/] is escaped). *)
Theorem unknown_route_answers_404 :
  forall env req bank file,
    str_eqb (method req) (js "POST") = false ->
    (str_eqb (method req) (js "GET") = false
     /\ str_eqb (method req) (js "DELETE") = false)
    \/ (pathname req <> js "/strings"
        /\ part_is (split_on 47 (pathname req)) 1 "strings"
           && (List.length (split_on 47 (pathname req)) =? 3)%nat = false) ->
    serve env req (fresh bank file)
    = (inr tt, responded bank file 404 (BodyError (js "Route not found"))).
Proof.
  intros env req bank file Hpost Hcase.
  unfold serve. rewrite server_not_POST by exact Hpost.
  unfold router. cbn [method pathname set_body query]. rewrite Hpost.
  destruct Hcase as [[Hget Hdel]|[Hpath Hparts]].
  - rewrite Hget, Hdel, !andb_false_r. reflexivity.
  - apply str_eqb_neq in Hpath. rewrite Hpath, Hparts.
    assert (Hnl : str_eqb (pathname req)
                    (js "/strings/filter-by-natural-language") = false).
    { apply str_eqb_neq. intros E. rewrite E in Hparts. discriminate Hparts. }
    rewrite Hnl. reflexivity.
Qed.

End NotFound.

Lemma unknown_route_answers_404_witness :
  let req := example_get "/strings/a/b" [] in
  str_eqb (method req) (js "POST") = false
  /\ pathname req <> js "/strings"
  /\ server example_digest (example_JSON_parse "a") (example_form_entries "a")
       example_env req (fresh [example_record "a/b"] None)
     = (inr tt,
        responded [example_record "a/b"] None 404
          (BodyError (js "Route not found"))).
Proof.
  intros req.
  assert (Hp : pathname req <> js "/strings") by discriminate.
  split; [reflexivity|]. split; [exact Hp|].
  exact (unknown_route_answers_404 example_digest (example_JSON_parse "a")
           (example_form_entries "a") example_env req
           [example_record "a/b"] None eq_refl
           (or_intror (conj Hp eq_refl))).
Defined.

(** ** Words *)

(** The pieces of [split(/\s+/)] against the words of the string. *)
Lemma split_ws_from_length (s : jsstring) :
  forall inrun cur,
    (List.length (split_ws_from inrun cur s)
     + (if ends_with_space inrun s then 0 else 1)
     = 1 + word_starts inrun s + (if inrun then 0 else 1))%nat.
Proof.
  induction s as [|c t IH]; intros inrun cur.
  - simpl. destruct inrun; reflexivity.
  - cbn [split_ws_from word_starts ends_with_space].
    destruct (isWhiteSpace c).
    + destruct inrun.
      * exact (IH true cur).
      * change (List.length (cur :: split_ws_from true [] t))
          with (S (List.length (split_ws_from true [] t))).
        pose proof (IH true []) as H. cbv iota in H. lia.
    + pose proof (IH false (cur ++ [c])) as H. destruct inrun;
        cbv iota in *; lia.
Qed.

Lemma word_starts_trimStart (s : jsstring) :
  word_starts true (trimStart s) = word_starts true s.
Proof.
  induction s as [|c t IH]; [reflexivity|].
  cbn [trimStart]. destruct (isWhiteSpace c) eqn:E.
  - rewrite IH. cbn [word_starts]. rewrite E. reflexivity.
  - reflexivity.
Qed.

Lemma trimStart_head (s : jsstring) c t :
  trimStart s = c :: t -> isWhiteSpace c = false.
Proof.
  induction s as [|x s IH]; cbn [trimStart]; [discriminate|].
  destruct (isWhiteSpace x) eqn:E; [exact IH|].
  intros H; injection H as <- _. exact E.
Qed.

Lemma trimEnd_snoc (s : jsstring) c :
  trimEnd (s ++ [c]) = if isWhiteSpace c then trimEnd s else s ++ [c].
Proof.
  unfold trimEnd. rewrite rev_app_distr. cbn [rev app trimStart].
  destruct (isWhiteSpace c); [reflexivity|].
  cbn [rev]. rewrite rev_involutive. reflexivity.
Qed.

Lemma word_starts_snoc_space (s : jsstring) c :
  isWhiteSpace c = true ->
  forall b, word_starts b (s ++ [c]) = word_starts b s.
Proof.
  intros Hc. induction s as [|x s IH]; intros b.
  - cbn [app word_starts]. rewrite Hc. reflexivity.
  - cbn [app word_starts]. destruct (isWhiteSpace x); rewrite IH; reflexivity.
Qed.

Lemma ends_with_space_snoc (s : jsstring) c :
  forall b, ends_with_space b (s ++ [c]) = isWhiteSpace c.
Proof.
  induction s as [|x s IH]; intros b; [reflexivity|].
  cbn [app ends_with_space]. apply IH.
Qed.

Lemma trimEnd_spec (s : jsstring) :
  (forall b, word_starts b (trimEnd s) = word_starts b s)
  /\ ends_with_space false (trimEnd s) = false
  /\ (forall c t, trimEnd s = c :: t -> exists u, s = c :: u).
Proof.
  induction s as [|c s (IHw & IHe & IHp)] using rev_ind.
  - repeat split; try reflexivity. discriminate.
  - rewrite trimEnd_snoc. destruct (isWhiteSpace c) eqn:E.
    + split; [|split].
      * intros b. rewrite IHw, word_starts_snoc_space by exact E.
        reflexivity.
      * exact IHe.
      * intros x t H. destruct (IHp x t H) as [u ->].
        exists (u ++ [c]). reflexivity.
    + split; [|split].
      * reflexivity.
      * rewrite ends_with_space_snoc. exact E.
      * intros x t H. destruct s as [|y s']; cbn [app] in H |- *;
          injection H as <- <-; eauto.
Qed.

Lemma wordCount_word_starts (value : jsstring) :
  wordCount value = Z.of_nat (word_starts true value).
Proof.
  unfold wordCount, trim, split_ws.
  destruct (trimEnd_spec (trimStart value)) as (Hw & He & Hp).
  rewrite <- word_starts_trimStart, <- (Hw true).
  destruct (trimEnd (trimStart value)) as [|c t] eqn:Et; [reflexivity|].
  cbn [str_eqb]. f_equal.
  destruct (Hp c t eq_refl) as [u Hu].
  pose proof (trimStart_head value c u Hu) as Hc.
  pose proof (split_ws_from_length (c :: t) false []) as Hlen.
  rewrite He in Hlen. cbn [word_starts] in *. rewrite Hc in *. lia.
Qed.

Lemma word_starts_zero (s : jsstring) :
  word_starts true s = 0%nat <-> forallb isWhiteSpace s = true.
Proof.
  induction s as [|c t IH]; [split; reflexivity|].
  cbn [word_starts forallb]. destruct (isWhiteSpace c); cbn [andb].
  - exact IH.
  - split; [lia|discriminate].
Qed.

(** X19.  [word_count] is the number of words of the value: the maximal
    runs of code units which are not white space.  In particular it is 0
    exactly for the values without such a code unit. *)
Theorem word_count_counts_the_words :
  forall hashedString value now,
    let p := properties (responseObject hashedString value now) in
    word_count p = Z.of_nat (word_starts true value)
    /\ (word_count p = 0%Z <-> forallb isWhiteSpace value = true).
Proof.
  intros hashedString value now p. subst p.
  cbn [properties responseObject word_count].
  split; [apply wordCount_word_starts|].
  rewrite wordCount_word_starts, <- word_starts_zero. lia.
Qed.

(** ** The frequency map as a whole *)

Lemma total_count_Map_set (m : list (jsstring * Z)) k v :
  total_count (Map_set m k v)
  = (total_count m + v - match Map_get m k with Some n => n | None => 0 end)%Z.
Proof.
  unfold total_count. induction m as [|[k0 v0] m IH]; simpl.
  - lia.
  - destruct (str_eqb k0 k); simpl; [lia|]. rewrite IH. lia.
Qed.

Lemma total_count_count_step (m : list (jsstring * Z)) char :
  total_count (count_step m char) = (total_count m + 1)%Z.
Proof.
  unfold count_step. rewrite total_count_Map_set.
  destruct (Map_get m char); lia.
Qed.

Lemma total_count_loop (l : list jsstring) :
  forall m,
    total_count (fold_left count_step l m)
    = (total_count m + Z.of_nat (List.length l))%Z.
Proof.
  induction l as [|c l IH]; intros m.
  - simpl. lia.
  - cbn [fold_left List.length]. rewrite IH, total_count_count_step. lia.
Qed.

Lemma total_count_Permutation (m m' : list (jsstring * Z)) :
  Permutation m m' -> total_count m = total_count m'.
Proof.
  unfold total_count. induction 1; simpl; lia.
Qed.

Section ObjectOrder.

Context {V : Type}.
Implicit Types (o : list (jsstring * V)) (k : jsstring) (v : V).

Lemma insert_index_Permutation i k v o :
  Permutation (insert_index i k v o) ((k, v) :: o).
Proof.
  induction o as [|[k0 v0] o IH]; simpl; [reflexivity|].
  destruct (arrayIndex k0) as [j|]; [|reflexivity].
  destruct (j <? i)%N; [|reflexivity].
  rewrite IH. apply perm_swap.
Qed.

Lemma obj_set_Permutation k v o :
  Map_get o k = None -> Permutation (obj_set k v o) ((k, v) :: o).
Proof.
  intros Hnone. unfold obj_set. rewrite Hnone.
  destruct (arrayIndex k); [apply insert_index_Permutation|].
  symmetry. apply Permutation_cons_append.
Qed.

(** An object built from entries with distinct keys has those entries,
    in its own order. *)
Lemma Object_fromEntries_Permutation (entries : list (jsstring * V)) :
  NoDup (map fst entries) ->
  Permutation (Object_fromEntries entries) entries.
Proof.
  unfold Object_fromEntries.
  assert (H : forall o,
             NoDup (map fst entries) ->
             (forall k, In k (map fst entries) -> Map_get o k = None) ->
             Permutation
               (fold_left (fun o kv => obj_set (fst kv) (snd kv) o) entries o)
               (o ++ entries)).
  { induction entries as [|[k v] es IH]; intros o Hnd Hfresh.
    - simpl. rewrite app_nil_r. reflexivity.
    - inversion Hnd as [|? ? Hnotin Hnd']; subst. cbn [fold_left fst snd].
      rewrite IH; [| exact Hnd' |].
      + rewrite obj_set_Permutation by (apply Hfresh; left; reflexivity).
        cbn [app]. apply Permutation_middle.
      + intros k' Hk'. rewrite obj_set_get.
        destruct (str_eqb k k') eqn:E.
        * apply str_eqb_eq in E. subst k'. contradiction.
        * apply Hfresh. right. exact Hk'. }
  intros Hnd. apply (H [] Hnd). reflexivity.
Qed.

Lemma Map_get_In_NoDup o k v :
  NoDup (map fst o) -> In (k, v) o -> Map_get o k = Some v.
Proof.
  induction o as [|[k0 v0] o IH]; simpl; intros Hnd Hin; [contradiction|].
  inversion Hnd as [|? ? Hnotin Hnd']; subst.
  destruct Hin as [Heq|Hin].
  - injection Heq as -> ->. rewrite str_eqb_refl. reflexivity.
  - destruct (str_eqb k0 k) eqn:E; [|auto].
    apply str_eqb_eq in E. subst k0. exfalso. apply Hnotin.
    apply (in_map fst) in Hin. exact Hin.
Qed.

End ObjectOrder.

Lemma charCounts_NoDup (value : jsstring) : NoDup (map fst (charCounts value)).
Proof. apply count_loop_NoDup. constructor. Qed.

Lemma characterMap_Permutation (value : jsstring) :
  Permutation (characterMap value) (charCounts value).
Proof. apply Object_fromEntries_Permutation, charCounts_NoDup. Qed.

Lemma characterMap_NoDup (value : jsstring) :
  NoDup (map fst (characterMap value)).
Proof.
  eapply Permutation_NoDup; [|apply charCounts_NoDup].
  symmetry. apply Permutation_map, characterMap_Permutation.
Qed.

(** X20.  In the frequency map of a record every character appears under
    one key only, every count is at least 1, and the counts add up to the
    number of characters of the value with its spaces removed. *)
Theorem frequency_counts_add_up :
  forall hashedString value now,
    let m := character_frequency_map
               (properties (responseObject hashedString value now)) in
    NoDup (map fst m)
    /\ (forall k n, In (k, n) m -> (1 <= n)%Z)
    /\ total_count m
       = Z.of_nat (List.length (chars (replaceAll_space value))).
Proof.
  intros hashedString value now m. subst m.
  cbn [properties responseObject character_frequency_map].
  split; [apply characterMap_NoDup|]. split.
  - intros k n Hin.
    pose proof (Map_get_In_NoDup _ _ _ (characterMap_NoDup value) Hin) as Hget.
    rewrite characterMap_get in Hget.
    destruct (count_occ _ _ k); [discriminate|].
    injection Hget as <-. lia.
  - rewrite (total_count_Permutation _ _ (characterMap_Permutation value)).
    unfold charCounts. rewrite total_count_loop. reflexivity.
Qed.

(** ** Distinct characters *)

Lemma chars_length_le (s : jsstring) :
  (List.length (chars s) <= List.length s)%nat.
Proof.
  induction s as [| c0 | c0 d t IHt IHd] using chars_ind.
  - simpl. lia.
  - simpl. lia.
  - change (chars (c0 :: d :: t))
      with (if isHighSurrogate c0 && isLowSurrogate d
            then [c0; d] :: chars t else [c0] :: chars (d :: t)).
    destruct (isHighSurrogate c0 && isLowSurrogate d);
      cbn [List.length] in *; lia.
Qed.

Lemma chars_nil (s : jsstring) : chars s = [] -> s = [].
Proof.
  destruct s as [|c [|d t]]; [reflexivity|discriminate|].
  cbn [chars]. destruct (isHighSurrogate c && isLowSurrogate d); discriminate.
Qed.

Lemma nodup_shorter (l : list jsstring) :
  (List.length (nodup jsstring_eq_dec l) <= List.length l)%nat.
Proof.
  induction l as [|x l IH]; simpl; [lia|].
  destruct (in_dec jsstring_eq_dec x l); simpl; lia.
Qed.

Lemma nodup_nil (l : list jsstring) : nodup jsstring_eq_dec l = [] -> l = [].
Proof.
  destruct l as [|x l]; [reflexivity|]. intros H.
  assert (Hin : In x (nodup jsstring_eq_dec (x :: l)))
    by (apply nodup_In; left; reflexivity).
  rewrite H in Hin. destruct Hin.
Qed.

(** X21.  [unique_characters] is at most [length], and it is 0 for the
    empty value only. *)
Theorem unique_characters_bounds :
  forall hashedString value now,
    let p := properties (responseObject hashedString value now) in
    (0 <= unique_characters p <= length_ p)%Z
    /\ (unique_characters p = 0%Z <-> value = []).
Proof.
  intros hashedString value now p. subst p.
  cbn [properties responseObject unique_characters length_].
  rewrite uniqueCharactersCount_distinct.
  pose proof (nodup_shorter (chars value)) as H1.
  pose proof (chars_length_le value) as H2.
  split; [lia|]. split.
  - intros H0. apply chars_nil, nodup_nil.
    destruct (nodup jsstring_eq_dec (chars value)); [reflexivity|].
    cbn [List.length] in H0. lia.
  - intros ->. reflexivity.
Qed.

(** The keys of the counting map are the distinct characters counted. *)
Lemma charCounts_length (value : jsstring) :
  List.length (charCounts value)
  = List.length (nodup jsstring_eq_dec (chars (replaceAll_space value))).
Proof.
  rewrite <- (length_map fst).
  apply Permutation_length, NoDup_Permutation;
    [apply charCounts_NoDup | apply NoDup_nodup |].
  intros k. rewrite nodup_In.
  pose proof (count_loop_get (chars (replaceAll_space value)) [] k) as Hget.
  fold (charCounts value) in Hget.
  rewrite (count_occ_In jsstring_eq_dec (chars (replaceAll_space value)) k).
  split.
  - intros Hin. destruct (count_occ _ _ k); [|lia].
    exfalso. apply (proj1 (Map_get_None _ _) Hget). exact Hin.
  - intros Hpos. destruct (count_occ _ _ k); [lia|].
    destruct (in_dec jsstring_eq_dec k (map fst (charCounts value)))
      as [Hin|Hnot]; [exact Hin|].
    apply Map_get_None in Hnot. congruence.
Qed.

Lemma split_empty_filter (p : N -> bool) (s : jsstring) :
  split_empty (filter p s)
  = filter (fun ch => match ch with [c] => p c | _ => true end)
           (split_empty s).
Proof.
  unfold split_empty. induction s as [|c s IH]; simpl; [reflexivity|].
  destruct (p c); simpl; rewrite IH; reflexivity.
Qed.

(** Leaving one element out of a list leaves one distinct element out, if
    it was there. *)
Lemma nodup_without (keep : jsstring -> bool) (a : jsstring)
  (l : list jsstring) :
  (forall x, keep x = false <-> x = a) ->
  List.length (nodup jsstring_eq_dec l)
  = (List.length (nodup jsstring_eq_dec (filter keep l))
     + if in_dec jsstring_eq_dec a l then 1 else 0)%nat.
Proof.
  intros Hkeep.
  assert (Hnot : ~ In a (nodup jsstring_eq_dec (filter keep l))).
  { rewrite nodup_In, filter_In. intros [_ Hk].
    assert (Hf : keep a = false) by (apply Hkeep; reflexivity). congruence. }
  destruct (in_dec jsstring_eq_dec a l) as [Hin|Hout].
  - rewrite Nat.add_1_r.
    change (S (List.length (nodup jsstring_eq_dec (filter keep l))))
      with (List.length (a :: nodup jsstring_eq_dec (filter keep l))).
    apply Permutation_length, NoDup_Permutation;
      [apply NoDup_nodup | constructor; [exact Hnot|apply NoDup_nodup] |].
    intros x. cbn [In]. rewrite !nodup_In, filter_In. split.
    + intros Hx. destruct (keep x) eqn:E; [auto|].
      left. symmetry. apply Hkeep. exact E.
    + intros [<-|[Hx _]]; assumption.
  - rewrite Nat.add_0_r. f_equal. f_equal. symmetry.
    apply forallb_filter_id. apply forallb_forall. intros x Hx.
    destruct (keep x) eqn:E; [reflexivity|].
    apply Hkeep in E. subst x. contradiction.
Qed.

(** X22.  For a value which contains no high-surrogate code unit (U+D800
    to U+DBFF), [unique_characters] is the number of keys of the frequency
    map, plus one when the value contains a space: the space is the only
    character counted by the one and not by the other. *)
Theorem unique_characters_is_keys_plus_space :
  forall hashedString value now,
    (forall c, In c value -> isHighSurrogate c = false) ->
    let p := properties (responseObject hashedString value now) in
    unique_characters p
    = (Z.of_nat (List.length (character_frequency_map p))
       + if existsb (N.eqb SPACE) value then 1 else 0)%Z.
Proof.
  intros hashedString value now Hbmp p. subst p.
  cbn [properties responseObject unique_characters character_frequency_map].
  rewrite uniqueCharactersCount_distinct.
  rewrite (Permutation_length (characterMap_Permutation value)).
  rewrite charCounts_length.
  rewrite (chars_without_surrogates value Hbmp).
  rewrite (chars_without_surrogates (replaceAll_space value))
    by (intros c Hc; apply Hbmp; unfold replaceAll_space in Hc;
        apply filter_In in Hc; tauto).
  unfold replaceAll_space. rewrite split_empty_filter.
  rewrite (nodup_without
             (fun ch => match ch with
                        | [c] => negb (N.eqb c SPACE)
                        | _ => true
                        end) [SPACE]).
  - rewrite Nat2Z.inj_add. f_equal.
    destruct (in_dec jsstring_eq_dec [SPACE] (split_empty value)) as [Hin|Hout];
      destruct (existsb (N.eqb SPACE) value) eqn:Ex; try reflexivity.
    + exfalso. unfold split_empty in Hin.
      apply in_map_iff in Hin as (c & Hc & Hin). injection Hc as ->.
      assert (Hex : existsb (N.eqb SPACE) value = true).
      { apply existsb_exists. exists SPACE. split; [exact Hin|].
        apply N.eqb_refl. }
      congruence.
    + exfalso. apply Hout. apply existsb_exists in Ex as (c & Hc & Heq).
      apply N.eqb_eq in Heq. subst c. unfold split_empty.
      apply in_map_iff. exists SPACE. split; [reflexivity|exact Hc].
  - intros [|c [|d t]]; split; try discriminate.
    + intros H. apply negb_false_iff, N.eqb_eq in H. subst c. reflexivity.
    + intros H. injection H as ->. reflexivity.
Qed.

Lemma unique_characters_is_keys_plus_space_witness :
  let p := properties (example_record "a b a") in
  (forall c, In c (js "a b a") -> isHighSurrogate c = false)
  /\ unique_characters p = 3%Z
  /\ List.length (character_frequency_map p) = 2%nat
  /\ unique_characters p
     = (Z.of_nat (List.length (character_frequency_map p))
        + if existsb (N.eqb SPACE) (js "a b a") then 1 else 0)%Z.
Proof.
  intros p.
  assert (Hbmp : forall c, In c (js "a b a") -> isHighSurrogate c = false).
  { intros c Hc. simpl in Hc.
    repeat destruct Hc as [<-|Hc]; try reflexivity. destruct Hc. }
  split; [exact Hbmp|]. split; [reflexivity|]. split; [reflexivity|].
  exact (unique_characters_is_keys_plus_space
           (example_digest (js "a b a")) (js "a b a") (now example_env) Hbmp).
Defined.

(** ** Looking records up *)

Lemma find_record_unique bank r :
  unique_values bank -> In r bank ->
  find_record (fun el => str_eqb (value el) (value r)) bank = Some r.
Proof.
  unfold unique_values, find_record.
  induction bank as [|el bank IH]; simpl; intros Hnd Hin; [contradiction|].
  inversion Hnd as [|? ? Hnotin Hnd']; subst.
  destruct Hin as [->|Hin].
  - rewrite str_eqb_refl. reflexivity.
  - destruct (str_eqb (value el) (value r)) eqn:E; [|auto].
    apply str_eqb_eq in E. exfalso. apply Hnotin. rewrite E.
    apply in_map. exact Hin.
Qed.

(** X23.  With distinct values, every record of the collection can be
    fetched: a get-one whose segment percent-decodes to the value of a
    stored record is answered 200 with that record, wherever it stands in
    the collection. *)
Theorem get_one_finds_every_stored_record :
  forall stringValue r bank file,
    unique_values bank ->
    In r bank ->
    decodeURIComponent stringValue = Some (value r) ->
    getStringHandler stringValue (fresh bank file)
    = (inr tt, responded bank file 200 (BodySuccess r)).
Proof.
  intros seg r bank file Huniq Hin Hdec.
  rewrite getStringHandler_run, Hdec, find_record_unique by assumption.
  reflexivity.
Qed.

Lemma get_one_finds_every_stored_record_witness :
  let a := example_record "level" in
  let b := example_record "hello world" in
  unique_values [a; b] /\ In b [a; b]
  /\ decodeURIComponent (js "hello%20world") = Some (value b)
  /\ getStringHandler (js "hello%20world") (fresh [a; b] None)
     = (inr tt, responded [a; b] None 200 (BodySuccess b)).
Proof.
  intros a b.
  assert (Huniq : unique_values [a; b]).
  { unfold unique_values. simpl. constructor.
    - intros [H|[]]. discriminate H.
    - constructor; [intros []|constructor]. }
  assert (Hin : In b [a; b]) by (right; left; reflexivity).
  split; [exact Huniq|]. split; [exact Hin|]. split; [reflexivity|].
  exact (get_one_finds_every_stored_record (js "hello%20world") b [a; b] None
           Huniq Hin eq_refl).
Defined.

(** X24.  The list handler reads five parameters and no other: two queries
    which agree on [is_palindrome], [min_length], [max_length],
    [word_count] and [contains_character] get the same answer. *)
Theorem list_ignores_other_parameters :
  forall q q' st,
    (forall name, In name filter_names -> query_get q name = query_get q' name) ->
    getAllStringsHandler q st = getAllStringsHandler q' st.
Proof.
  intros q q' st H.
  assert (H1 := H "is_palindrome"%string). assert (H2 := H "min_length"%string).
  assert (H3 := H "max_length"%string). assert (H4 := H "word_count"%string).
  assert (H5 := H "contains_character"%string).
  unfold filter_names in *. cbn [In] in *.
  unfold getAllStringsHandler, applyFilters.
  rewrite H1, H2, H3, H4, H5 by tauto. reflexivity.
Qed.

Lemma list_ignores_other_parameters_witness :
  let q := [(js "page", QStr (js "2")); (js "min_length", QStr (js "4"))] in
  let q' := [(js "min_length", QStr (js "4")); (js "sort", QStr (js "asc"))] in
  let st := fresh [example_record "level"; example_record "abc"] None in
  (forall name, In name filter_names -> query_get q name = query_get q' name)
  /\ getAllStringsHandler q st = getAllStringsHandler q' st.
Proof.
  intros q q' st.
  assert (H : forall name, In name filter_names ->
                           query_get q name = query_get q' name).
  { intros name Hin. unfold filter_names in Hin. cbn [In] in Hin.
    repeat destruct Hin as [<-|Hin]; try reflexivity. destruct Hin. }
  split; [exact H|].
  exact (list_ignores_other_parameters q q' st H).
Defined.

(** ** Payloads which are not JSON *)

Section Malformed.

Variable hashString : jsstring -> jsstring.
Variable JSON_parse : jsstring -> option JSValue.
Variable URLSearchParams_entries : jsstring -> list (jsstring * jsstring).

(** X25.  A POST with the content type [application/json] whose payload
    is not empty and does not parse is answered 400 "Invalid JSON format"
    by the middleware, on every path: no route is looked up, no handler
    runs (whatever the continuation given to the middleware), and the
    collection and the file are as they were. *)
Theorem malformed_json_stops_at_the_middleware :
  forall env req bank file,
    method req = js "POST" ->
    content_type req = Some (js "application/json") ->
    payload req <> [] ->
    JSON_parse (payload req) = None ->
    forall route : Request -> M unit,
      server hashString JSON_parse URLSearchParams_entries env req
             (fresh bank file)
      = (inr tt, responded bank file 400 (BodyError (js "Invalid JSON format")))
      /\ convertStream JSON_parse URLSearchParams_entries req route
                       (fresh bank file)
         = (inr tt,
            responded bank file 400 (BodyError (js "Invalid JSON format"))).
Proof.
  intros env req bank file Hm Hct Hpl Hparse route.
  assert (H : forall k,
             convertStream JSON_parse URLSearchParams_entries req k
                           (fresh bank file)
             = (inr tt,
                responded bank file 400 (BodyError (js "Invalid JSON format")))).
  { intros k. unfold convertStream.
    cbn [method payload content_type set_body]. rewrite Hm, Hct, Hparse.
    destruct (payload req) as [|c rest]; [congruence|]. reflexivity. }
  split; [apply H|apply H].
Qed.

End Malformed.

Lemma malformed_json_stops_at_the_middleware_witness :
  let req :=
    {| method := js "POST"; pathname := js "/nowhere"; query := [];
       content_type := Some (js "application/json");
       payload := js "{value:"; req_body := JNull |} in
  method req = js "POST" /\ payload req <> []
  /\ server example_digest (fun _ => None) (example_form_entries "a")
       example_env req (fresh [] None)
     = (inr tt, responded [] None 400 (BodyError (js "Invalid JSON format"))).
Proof.
  intros req.
  assert (Hpl : payload req <> []) by discriminate.
  split; [reflexivity|]. split; [exact Hpl|].
  exact (proj1
    (malformed_json_stops_at_the_middleware example_digest (fun _ => None)
       (example_form_entries "a") example_env req [] None
       eq_refl eq_refl Hpl eq_refl (fun _ => ret tt))).
Defined.

(** ** Create, for every body but [null] *)

(** X26.  For every body but [null], the create handler checks in this
    order: no ['value'] field, 400; a ['value'] which is not a string, 422;
    a ['value'] which some record already has, 409.  Each of the three
    answers leaves the collection and the file as they were. *)
Theorem create_checks_in_order :
  forall (hashString : jsstring -> jsstring) env req bank file,
    req_body req <> JNull ->
    let out := finalHandler hashString env req (fresh bank file) in
    (value_field (req_body req) = None ->
     out = (inr tt,
            responded bank file 400
              (BodyError (js "Invalid request body or missing 'value' field"))))
    /\ (forall v,
          value_field (req_body req) = Some v ->
          (forall s, v <> JStr s) ->
          out = (inr tt,
                 responded bank file 422
                   (BodyError
                      (js "Invalid data type for 'value' (must be string)"))))
    /\ (forall val,
          value_field (req_body req) = Some (JStr val) ->
          existsb (fun el => str_eqb (value el) val) bank = true ->
          out = (inr tt,
                 responded bank file 409
                   (BodyError (js "String already exists in the system")))).
Proof.
  intros hashString env req bank file Hnn out. subst out.
  rewrite finalHandler_checks by exact Hnn.
  split; [|split].
  - intros ->. reflexivity.
  - intros v -> Hv. destruct v; try reflexivity.
    exfalso. eapply Hv. reflexivity.
  - intros val -> ->. reflexivity.
Qed.

Lemma create_checks_in_order_witness :
  let req :=
    {| method := js "POST"; pathname := js "/strings"; query := [];
       content_type := Some (js "application/json"); payload := js "{}";
       req_body := JObj [(js "value", JNum (js "42"))] |} in
  req_body req <> JNull
  /\ finalHandler example_digest example_env req
       (fresh [example_record "42"] None)
     = (inr tt,
        responded [example_record "42"] None 422
          (BodyError (js "Invalid data type for 'value' (must be string)"))).
Proof.
  intros req.
  assert (Hnn : req_body req <> JNull) by discriminate.
  split; [exact Hnn|].
  refine (proj1 (proj2
    (create_checks_in_order example_digest example_env req
       [example_record "42"] None Hnn)) (JNum (js "42")) eq_refl _).
  intros s. discriminate.
Defined.

(** X27.  Creating a string value which no record has, with a file that
    can be written, answers 201 with the new record; the record is appended
    after the records already there, which are kept as they are, and the
    file is rewritten with the new collection.  The record carries the
    value, the digest of the value as [id] and as [sha256_hash], the clock
    as [created_at], and the number of code units as [length]. *)
Theorem create_new_value_appends_its_record :
  forall (hashString : jsstring -> jsstring) env req bank file val,
    value_field (req_body req) = Some (JStr val) ->
    existsb (fun el => str_eqb (value el) val) bank = false ->
    writeFile_ok env = true ->
    exists r,
      finalHandler hashString env req (fresh bank file)
      = (inr tt, responded (bank ++ [r]) (Some (bank ++ [r])) 201 (BodySuccess r))
      /\ value r = val
      /\ id r = hashString val
      /\ sha256_hash (properties r) = hashString val
      /\ created_at r = now env
      /\ length_ (properties r) = Z.of_nat (List.length val)
      /\ analysed r.
Proof.
  intros hashString env req bank file val Hval Hnew Hw.
  exists (responseObject (hashString val) val (now env)).
  split; [|repeat split].
  rewrite finalHandler_checks
    by (intros E; rewrite E in Hval; discriminate Hval).
  rewrite Hval, Hnew. cbv zeta. rewrite Hw. reflexivity.
Qed.

Lemma create_new_value_appends_its_record_witness :
  let a := example_record "hello world" in
  let r := example_record "level" in
  value_field (req_body (example_post "level")) = Some (JStr (js "level"))
  /\ existsb (fun el => str_eqb (value el) (js "level")) [a] = false
  /\ writeFile_ok example_env = true
  /\ exists r,
       finalHandler example_digest example_env (example_post "level")
         (fresh [a] None)
       = (inr tt, responded ([a] ++ [r]) (Some ([a] ++ [r])) 201 (BodySuccess r))
       /\ value r = js "level".
Proof.
  intros a r. repeat (split; [reflexivity|]).
  destruct (create_new_value_appends_its_record example_digest example_env
              (example_post "level") [a] None (js "level")
              eq_refl eq_refl eq_refl) as (x & Hrun & Hv & _).
  exists x. split; assumption.
Defined.

(** ** Natural-language queries that trigger nothing *)

(** X28.  A non-empty query text which triggers none of the five rules is
    answered 200 with the whole collection, its size as [count], and empty
    [parsed_filters]. *)
Theorem natural_language_without_trigger_returns_everything :
  forall q originalQuery bank file,
    query_get q "query" = Some (QStr originalQuery) ->
    originalQuery <> [] ->
    includes originalQuery (js "palindromic") = false ->
    includes originalQuery (js "single word") = false ->
    match_longer_than originalQuery = None ->
    match_containing_the_letter originalQuery = None ->
    match_first_vowel originalQuery = false ->
    naturalLanguageHandler q (fresh bank file)
    = (inr tt,
       responded bank file 200
         (BodyNatural bank (Z.of_nat (List.length bank)) originalQuery [])).
Proof.
  intros q originalQuery bank file Hq Hne H1 H2 H3 H4 H5.
  rewrite (naturalLanguageHandler_run q originalQuery bank file Hq Hne).
  unfold nl_rules, rule_first_vowel, rule_containing, rule_longer_than,
    rule_single_word, rule_palindromic.
  rewrite H1, H2, H3, H4, H5. reflexivity.
Qed.

Lemma natural_language_without_trigger_returns_everything_witness :
  let text := js "strings shorter than 5 with Palindromic words" in
  let q := [(js "query", QStr text)] in
  let bank := [example_record "level"; example_record "hello world"] in
  query_get q "query" = Some (QStr text)
  /\ text <> []
  /\ naturalLanguageHandler q (fresh bank None)
     = (inr tt, responded bank None 200 (BodyNatural bank 2 text [])).
Proof.
  intros text q bank.
  assert (Hne : text <> []) by discriminate.
  split; [reflexivity|]. split; [exact Hne|].
  exact (natural_language_without_trigger_returns_everything q text bank None
           eq_refl Hne eq_refl eq_refl eq_refl eq_refl eq_refl).
Defined.
